(** * Principia: test numerics, bodies, Grassmann algebra and trajectories

    A shallow embedding of the parts of the Principia sources that the
    specification talks about, followed by their properties.

    Definitions:
    - [Numerics]: [testing_utilities/numerics_body.hpp], the distance in
      units in the last place between two doubles;
    - [Physics]: [physics/massive_body_body.hpp], the constructors and
      selectors of [MassiveBody];
    - [Geometry]: the Grassmann algebra exercised by
      [GeometryTests/GrassmannTests.cpp];
    - [Dynamics]: the trajectories, the SPRK integrator and the N-body
      system driven by [physics/n_body_system_test.cpp];
    - [Fixtures]: the fixtures and the operands of the two tests;
    - [Ordinals]: the order of the doubles that [ULPDistance] counts along;
    - [ErrorNorms]: [testing_utilities/numerics_body.hpp], the absolute and
      the relative error;
    - [Serialization]: [physics/massive_body_body.hpp], the messages that a
      [MassiveBody] is written to and read from;
    - [Mathematica]: [physics/n_body_system_test.cpp], the strings that the
      test logs;
    - [FloatClasses]: classes of the values of IEEE 754 binary64.

    Properties: [FloatTheory], on the arithmetic of doubles; then
    [NumericsTheory], [PhysicsTheory], [GeometryTheory], [DynamicsTheory],
    [OrdinalTheory], [ErrorNormsTheory], [SerializationTheory] and
    [MathematicaTheory]. *)

From Stdlib Require Import ZArith Bool Lia Ascii String List Eqdep_dec.
From Stdlib Require Import Floats.
From Stdlib Require Import Sorted.
From Equations Require Import Equations.
From Equations.Prop Require Import Logic.
Import ListNotations.

(** Decimal literals denote the nearest double, as they do in the sources. *)
Set Warnings "-inexact-float".

(* ===================================================================== *)
(** * testing_utilities/numerics_body.hpp *)
(* ===================================================================== *)

Module Numerics.

Local Open Scope Z_scope.

(** ** IEEE 754 binary64 values, by their bit pattern

    [ULPDistance] reads a [double] through the union [Qword], so a double
    is modelled by the 64 bits it is stored in: bit 63 is the sign, bits
    62..52 the biased exponent, bits 51..0 the fraction. *)

Definition in_range64 (z : Z) : bool := (0 <=? z) && (z <? 2 ^ 64).

Record double : Type := Double {
  bits : Z;
  bits_range : in_range64 bits = true
}.

Lemma in_range64_mod (z : Z) : in_range64 (z mod 2 ^ 64) = true.
Proof.
  unfold in_range64.
  pose proof (Z.mod_pos_bound z (2 ^ 64) eq_refl) as [Hlo Hhi].
  apply andb_true_intro; split; [apply Z.leb_le | apply Z.ltb_lt]; assumption.
Qed.

(** The double stored in the low 64 bits of [z]. *)
Definition of_bits (z : Z) : double := Double (z mod 2 ^ 64) (in_range64_mod z).

Definition sign_bit (x : double) : bool := Z.testbit (bits x) 63.
Definition biased_exponent (x : double) : Z :=
  Z.land (Z.shiftr (bits x) 52) (Z.ones 11).
Definition fraction (x : double) : Z := Z.land (bits x) (Z.ones 52).

Definition is_nan (x : double) : bool :=
  (biased_exponent x =? 2047) && negb (fraction x =? 0).
Definition is_zero (x : double) : bool :=
  (biased_exponent x =? 0) && (fraction x =? 0).

(** The constants the function uses: [+0.0], [-0.0] and [1]. *)
Definition pos_zero : double := of_bits 0.
Definition neg_zero : double := of_bits (2 ^ 63).
Definition one : double := of_bits 0x3FF0000000000000.
Definition minus_one : double := of_bits 0xBFF0000000000000.

(** [x == y] on doubles: false as soon as one side is a NaN, true on two
    zeros of any sign, and otherwise equality of the bit patterns. *)
Definition double_eq (x y : double) : bool :=
  if is_nan x || is_nan y then false
  else if is_zero x && is_zero y then true
  else bits x =? bits y.

(** [std::copysign(mag, sgn)]: the bits of [mag] with the sign bit of [sgn]. *)
Definition copysign (mag sgn : double) : double :=
  of_bits (if sign_bit sgn then Z.setbit (bits mag) 63
           else Z.clearbit (bits mag) 63).

(** ** [std::int64_t], with its wrap-around written out

    A sum, difference or absolute value that leaves the range of
    [std::int64_t] keeps its low 64 bits, read in two's complement. *)

Definition wrap64 (z : Z) : Z := (z + 2 ^ 63) mod 2 ^ 64 - 2 ^ 63.
Definition add64 (a b : Z) : Z := wrap64 (a + b).
Definition sub64 (a b : Z) : Z := wrap64 (a - b).
Definition abs64 (a : Z) : Z := wrap64 (Z.abs a).

(** [union Qword]: the [long_value] member of a [Qword] whose
    [double_value] was written, the two's-complement reading of the bits. *)
Definition long_value (x : double) : Z := wrap64 (bits x).

(** ** [ULPDistance] *)

(** The recursive calls compare operands of equal sign, so the number of
    mismatched signs decreases. *)
Definition sign_mismatch (x y : double) : nat :=
  if Bool.eqb (sign_bit x) (sign_bit y) then 0%nat else 1%nat.

Lemma copysign_one (x : double) :
  copysign one x = if sign_bit x then minus_one else one.
Proof. unfold copysign. destruct (sign_bit x); reflexivity. Qed.

Lemma double_eq_signs (x y : double) :
  double_eq (copysign one x) (copysign one y)
  = Bool.eqb (sign_bit x) (sign_bit y).
Proof.
  rewrite !copysign_one. destruct (sign_bit x), (sign_bit y); reflexivity.
Qed.

Lemma double_eq_sign_one (x : double) :
  double_eq (copysign one x) one = negb (sign_bit x).
Proof. rewrite copysign_one. destruct (sign_bit x); reflexivity. Qed.

Lemma sign_bit_pos_zero : sign_bit pos_zero = false.
Proof. reflexivity. Qed.

Lemma sign_bit_neg_zero : sign_bit neg_zero = true.
Proof. reflexivity. Qed.

Lemma mismatch_positive (x y : double) :
  negb (double_eq (copysign one x) (copysign one y)) = true ->
  (sign_mismatch (if double_eq (copysign one x) one then x else y) pos_zero
   < sign_mismatch x y)%nat.
Proof.
  rewrite double_eq_signs, double_eq_sign_one. unfold sign_mismatch.
  rewrite sign_bit_pos_zero.
  destruct (sign_bit x) eqn:Hx, (sign_bit y) eqn:Hy; cbn [negb Bool.eqb];
    try discriminate; intros _; rewrite ?Hx, ?Hy; cbn [Bool.eqb]; auto.
Qed.

Lemma mismatch_negative (x y : double) :
  negb (double_eq (copysign one x) (copysign one y)) = true ->
  (sign_mismatch (if double_eq (copysign one x) one then y else x) neg_zero
   < sign_mismatch x y)%nat.
Proof.
  rewrite double_eq_signs, double_eq_sign_one. unfold sign_mismatch.
  rewrite sign_bit_neg_zero.
  destruct (sign_bit x) eqn:Hx, (sign_bit y) eqn:Hy; cbn [negb Bool.eqb];
    try discriminate; intros _; rewrite ?Hx, ?Hy; cbn [Bool.eqb]; auto.
Qed.

#[local] Obligation Tactic := idtac.
Local Opaque double_eq copysign one pos_zero neg_zero.
Local Opaque add64 abs64 sub64 long_value sign_mismatch.

(** The function, clause for clause: equal operands are at distance 0;
    operands of different sign are measured through the two zeros; operands
    of equal sign by the difference of their [long_value]s. *)
Equations ULPDistance (x y : double) : Z by wf (sign_mismatch x y) lt :=
ULPDistance x y with inspect (double_eq x y) := {
  | exist _ true _ => 0
  | exist _ false _ with
      inspect (negb (double_eq (copysign one x) (copysign one y))) := {
    | exist _ true Hsign =>
        add64
          (ULPDistance
             (if double_eq (copysign one x) one then x else y) pos_zero)
          (ULPDistance
             (if double_eq (copysign one x) one then y else x) neg_zero)
    | exist _ false _ =>
        abs64 (sub64 (long_value x) (long_value y)) } }.
Next Obligation. intros. apply mismatch_positive; assumption. Qed.
Next Obligation. intros. apply mismatch_negative; assumption. Qed.

Local Transparent double_eq copysign one pos_zero neg_zero.
Local Transparent add64 abs64 sub64 long_value sign_mismatch.

(** The encoding of a double of the kernel's floating-point arithmetic:
    its sign, biased exponent and fraction fields, and the quiet NaN for
    the kernel's only NaN. *)
Definition double_of_float (f : float) : double :=
  of_bits
    match Prim2SF f with
    | S754_zero s => if s then 2 ^ 63 else 0
    | S754_infinity s => (if s then 2 ^ 63 else 0) + 2047 * 2 ^ 52
    | S754_nan => 2047 * 2 ^ 52 + 2 ^ 51
    | S754_finite s m e =>
        (if s then 2 ^ 63 else 0)
        + (if Z.pos m <? 2 ^ 52 then Z.pos m
           else (e + 1075) * 2 ^ 52 + (Z.pos m - 2 ^ 52))
    end.

(** The powers of two of the format, as numerals, for [lia]. *)
Ltac pow2 :=
  change (2 ^ 64) with 18446744073709551616 in *;
  change (2 ^ 63) with 9223372036854775808 in *;
  change (2 ^ 52) with 4503599627370496 in *;
  change (2 ^ 11) with 2048 in *.

(** A quiet NaN, the largest finite double and its opposite. *)
Definition quiet_nan : double := of_bits 0x7FF8000000000000.
Definition dbl_max : double := of_bits 0x7FEFFFFFFFFFFFFF.
Definition minus_dbl_max : double := of_bits 0xFFEFFFFFFFFFFFFF.

End Numerics.

(* ===================================================================== *)
(** * physics/massive_body_body.hpp *)
(* ===================================================================== *)

Module Physics.

Local Open Scope float_scope.

(** The outcome of code guarded by glog's [CHECK] macros: the value, or
    the message of the fatal failure that ends the program. *)
Inductive Checked (A : Type) : Type :=
| Ok (a : A)
| Fatal (message : string).
Arguments Ok {A} a.
Arguments Fatal {A} message.

(** Modelled from the spec: the quantity types of [quantities/] are
    missing.  A quantity is "backed by a double-precision
    float" and its dimension exists at compile time only, so a quantity is
    its double; [==], [*] and [/] are those of IEEE 754 binary64. *)
Definition Quantity : Type := float.
Definition Mass : Type := Quantity.
Definition GravitationalParameter : Type := Quantity.

(** [CHECK_NE(a, b)] passes when [a != b]. *)
Definition CHECK_NE (a b : Quantity) : bool := negb (a =? b).

(** The data members of [class MassiveBody]. *)
Record MassiveBody : Type := Build_MassiveBody {
  gravitational_parameter_ : GravitationalParameter;
  mass_ : Mass
}.

Section MassiveBodyConstructors.

(** [constants::GravitationalConstant], of [quantities/constants.hpp]. *)
Variable GravitationalConstant : Quantity.

(** [MassiveBody::MassiveBody(GravitationalParameter const&)]: the members
    are initialized, then the body of the constructor checks the argument
    against the default-constructed (zero) quantity. *)
Definition MassiveBody_from_gravitational_parameter
    (gravitational_parameter : GravitationalParameter) : Checked MassiveBody :=
  let body :=
    {| gravitational_parameter_ := gravitational_parameter;
       mass_ := gravitational_parameter / GravitationalConstant |} in
  if CHECK_NE gravitational_parameter 0 then Ok body
  else Fatal "Massive body cannot have zero gravitational parameter"%string.

(** [MassiveBody::MassiveBody(Mass const&)]. *)
Definition MassiveBody_from_mass (mass : Mass) : Checked MassiveBody :=
  let body :=
    {| gravitational_parameter_ := mass * GravitationalConstant;
       mass_ := mass |} in
  if CHECK_NE mass 0 then Ok body
  else Fatal "Massive body cannot have zero mass"%string.

End MassiveBodyConstructors.

Definition gravitational_parameter (body : MassiveBody)
  : GravitationalParameter := gravitational_parameter_ body.

Definition mass (body : MassiveBody) : Mass := mass_ body.

Definition is_massless (body : MassiveBody) : bool := false.

Definition is_oblate (body : MassiveBody) : bool := false.

End Physics.

(* ===================================================================== *)
(** * The Grassmann algebra of GeometryTests/GrassmannTests.cpp *)
(* ===================================================================== *)

Module Geometry.

(** ** Scalars

    [R3Element<Scalar>] and [Multivector<Scalar, Frame, Rank>] are templates
    over the scalar type; the class below is that template parameter with
    the operations the algebra uses. *)
Class Scalar (S : Type) : Type := {
  s_zero : S;
  s_one : S;
  s_add : S -> S -> S;
  s_mul : S -> S -> S;
  s_sub : S -> S -> S;
  s_opp : S -> S
}.

(** The doubles that back every [Quantity]. *)
#[export] Instance Scalar_double : Scalar float := {
  s_zero := 0%float;
  s_one := 1%float;
  s_add := PrimFloat.add;
  s_mul := PrimFloat.mul;
  s_sub := PrimFloat.sub;
  s_opp := PrimFloat.opp
}.

(** ** [R3Element<Scalar>] *)

(** Modelled from the spec: [geometry/r3_element.hpp] is missing.  "A bare
    3-component numeric tuple (no physical meaning) supporting vector-space
    operations (add, scale, dot, cross, norm) parameterized by a scalar
    type". *)
Record R3Element (S : Type) : Type := Build_R3Element {
  x : S;
  y : S;
  z : S
}.
Arguments Build_R3Element {S} x y z.
Arguments x {S} r.
Arguments y {S} r.
Arguments z {S} r.

(** The frame tags of the two test fixtures: [struct World;] and
    [struct EarthMoonBarycentricFrame;], types with no value. *)
Inductive World : Type := .
Inductive EarthMoonBarycentricFrame : Type := .

Section R3ElementOperations.
Context {S : Type} {ops : Scalar S}.

(** Modelled from the spec: the operations "add, scale, dot, cross" of the
    tuple, coordinate by coordinate; [Dot] is the sum of the products of the
    coordinates and [Cross] the tuple of the 2x2 minors. *)
Definition R3_zero : R3Element S := Build_R3Element s_zero s_zero s_zero.

Definition R3_add (left right : R3Element S) : R3Element S :=
  Build_R3Element (s_add (x left) (x right))
                  (s_add (y left) (y right))
                  (s_add (z left) (z right)).

Definition R3_opp (right : R3Element S) : R3Element S :=
  Build_R3Element (s_opp (x right)) (s_opp (y right)) (s_opp (z right)).

Definition R3_sub (left right : R3Element S) : R3Element S :=
  Build_R3Element (s_sub (x left) (x right))
                  (s_sub (y left) (y right))
                  (s_sub (z left) (z right)).

Definition R3_scale (left : S) (right : R3Element S) : R3Element S :=
  Build_R3Element (s_mul left (x right))
                  (s_mul left (y right))
                  (s_mul left (z right)).

Definition Dot (left right : R3Element S) : S :=
  s_add (s_add (s_mul (x left) (x right)) (s_mul (y left) (y right)))
        (s_mul (z left) (z right)).

Definition Cross (left right : R3Element S) : R3Element S :=
  Build_R3Element
    (s_sub (s_mul (y left) (z right)) (s_mul (z left) (y right)))
    (s_sub (s_mul (z left) (x right)) (s_mul (x left) (z right)))
    (s_sub (s_mul (x left) (y right)) (s_mul (y left) (x right))).

End R3ElementOperations.

(** ** [Multivector<Scalar, Frame, Rank>] *)

(** Modelled from the spec: [geometry/grassmann.hpp] is missing.  A
    multivector "wraps an R3Element<Scalar> (Rank 1 or 2) or a
    single Scalar (Rank 3), tagged with a distinct, non-interchangeable
    Frame marker type"; the frame is a phantom type parameter, so only
    multivectors of one frame can meet in an operation. *)
Record Vector (S Frame : Type) : Type := Build_Vector {
  Vector_coordinates : R3Element S
}.
Arguments Build_Vector {S Frame} _.
Arguments Vector_coordinates {S Frame} _.

Record Bivector (S Frame : Type) : Type := Build_Bivector {
  Bivector_coordinates : R3Element S
}.
Arguments Build_Bivector {S Frame} _.
Arguments Bivector_coordinates {S Frame} _.

Record Trivector (S Frame : Type) : Type := Build_Trivector {
  Trivector_coordinates : S
}.
Arguments Build_Trivector {S Frame} _.
Arguments Trivector_coordinates {S Frame} _.

(** The three specializations of the template, by rank; no other rank is
    inhabited. *)
Definition Multivector (S Frame : Type) (rank : nat) : Type :=
  match rank with
  | 1 => Vector S Frame
  | 2 => Bivector S Frame
  | 3 => Trivector S Frame
  | _ => Empty_set
  end.

Section GrassmannOperations.
Context {S : Type} {ops : Scalar S} {Frame : Type}.

Definition Vector_zero : Vector S Frame := Build_Vector R3_zero.

Definition Vector_add (left right : Vector S Frame) : Vector S Frame :=
  Build_Vector (R3_add (Vector_coordinates left) (Vector_coordinates right)).

Definition Vector_sub (left right : Vector S Frame) : Vector S Frame :=
  Build_Vector (R3_sub (Vector_coordinates left) (Vector_coordinates right)).

Definition Vector_scale (left : S) (right : Vector S Frame) : Vector S Frame :=
  Build_Vector (R3_scale left (Vector_coordinates right)).

Definition Bivector_zero : Bivector S Frame := Build_Bivector R3_zero.

Definition Bivector_add (left right : Bivector S Frame) : Bivector S Frame :=
  Build_Bivector
    (R3_add (Bivector_coordinates left) (Bivector_coordinates right)).

Definition Bivector_opp (right : Bivector S Frame) : Bivector S Frame :=
  Build_Bivector (R3_opp (Bivector_coordinates right)).

Definition Bivector_scale (left : S) (right : Bivector S Frame)
  : Bivector S Frame :=
  Build_Bivector (R3_scale left (Bivector_coordinates right)).

(** The bivectors of the three coordinate planes. *)
Definition Bivector_x : Bivector S Frame :=
  Build_Bivector (Build_R3Element s_one s_zero s_zero).
Definition Bivector_y : Bivector S Frame :=
  Build_Bivector (Build_R3Element s_zero s_one s_zero).
Definition Bivector_z : Bivector S Frame :=
  Build_Bivector (Build_R3Element s_zero s_zero s_one).

(** Modelled from the spec: "Wedge(Vector, Vector) -> Bivector:
    antisymmetric bilinear product", the product of the exterior algebra of
    a 3-dimensional space, whose coordinates on the bivector basis are the
    2x2 minors of the operands, that is [Cross] of their coordinates. *)
Definition Wedge (left right : Vector S Frame) : Bivector S Frame :=
  Build_Bivector
    (Cross (Vector_coordinates left) (Vector_coordinates right)).

(** Modelled from the spec: "Commutator(Bivector, Bivector) -> Bivector:
    defined so that bivectors under this bracket and addition form the Lie
    algebra of the 3-D rotation group", whose bracket on coordinates is
    [Cross]. *)
Definition Commutator (left right : Bivector S Frame) : Bivector S Frame :=
  Build_Bivector
    (Cross (Bivector_coordinates left) (Bivector_coordinates right)).

(** Modelled from the spec: "InnerProduct(grade-k, grade-k) -> Scalar",
    the dot product of the coordinates, and for trivectors, "isomorphic to
    a single scalar", the product of the two scalars. *)
Definition Vector_InnerProduct (left right : Vector S Frame) : S :=
  Dot (Vector_coordinates left) (Vector_coordinates right).

Definition Bivector_InnerProduct (left right : Bivector S Frame) : S :=
  Dot (Bivector_coordinates left) (Bivector_coordinates right).

Definition Trivector_InnerProduct (left right : Trivector S Frame) : S :=
  s_mul (Trivector_coordinates left) (Trivector_coordinates right).

(** [MultivectorInnerProduct<LScalar, RScalar, Frame, Rank>] of the test
    fixture: the inner product of two multivectors of one rank. *)
Definition MultivectorInnerProduct (rank : nat)
  : Multivector S Frame rank -> Multivector S Frame rank -> S :=
  match rank with
  | 1 => Vector_InnerProduct
  | 2 => Bivector_InnerProduct
  | 3 => Trivector_InnerProduct
  | _ => fun left _ => match left with end
  end.

End GrassmannOperations.

(** ** Norms *)

(** Modelled from the spec: "InnerProduct(v,v) = Norm(v)^2"; the norm of a
    tuple of doubles is the square root, in IEEE 754 binary64, of the sum
    of the squares of its coordinates. *)
Definition R3_Norm_double (r : R3Element float) : float :=
  PrimFloat.sqrt (Dot r r).

(** ** The algebra on doubles

    Every [Quantity] and every [Dimensionless] of the tests is backed by a
    double: the norms, the comparisons and the operands below are those of
    the scalar type [float]. *)

Section DoubleOperations.
Context {Frame : Type}.
Local Open Scope float_scope.

(** Modelled from the spec: "InnerProduct(v,v) = Norm(v)^2"; the norm of a
    vector or of a bivector is that of its coordinates, the norm of a
    trivector, "isomorphic to a single scalar", the absolute value of its
    scalar. *)
Definition Multivector_Norm (rank : nat)
  : Multivector float Frame rank -> float :=
  match rank with
  | 1 => fun v : Vector float Frame => R3_Norm_double (Vector_coordinates v)
  | 2 =>
      fun v : Bivector float Frame => R3_Norm_double (Bivector_coordinates v)
  | 3 => fun v : Trivector float Frame => abs (Trivector_coordinates v)
  | _ => fun v => match v with end
  end.

(** The coordinates of a multivector: three for a vector or a bivector,
    one for a trivector. *)
Definition Multivector_coordinates (rank : nat)
  : Multivector float Frame rank -> list float :=
  match rank with
  | 1 =>
      fun v : Vector float Frame =>
        let r := Vector_coordinates v in [x r; y r; z r]
  | 2 =>
      fun v : Bivector float Frame =>
        let r := Bivector_coordinates v in [x r; y r; z r]
  | 3 => fun v : Trivector float Frame => [Trivector_coordinates v]
  | _ => fun v => match v with end
  end.

(** The sum of the Jacobi identity:
    [Commutator(p, Commutator(q, r)) + Commutator(q, Commutator(r, p))
     + Commutator(r, Commutator(p, q))]. *)
Definition Jacobi (p q r : Bivector float Frame) : Bivector float Frame :=
  Bivector_add
    (Bivector_add (Commutator p (Commutator q r))
                  (Commutator q (Commutator r p)))
    (Commutator r (Commutator p q)).

End DoubleOperations.

(** Two doubles that are the same double, or [+0.0] and [-0.0] in this
    order; and two tuples that are so coordinate by coordinate. *)
Definition equal_up_to_zero_sign (c c' : float) : Prop :=
  c = c' \/ (c = 0%float /\ c' = (-0)%float).

Definition R3_equal_up_to_zero_sign (a b : R3Element float) : Prop :=
  equal_up_to_zero_sign (x a) (x b)
  /\ equal_up_to_zero_sign (y a) (y b)
  /\ equal_up_to_zero_sign (z a) (z b).

(** [==] on tuples of doubles, coordinate by coordinate; the tuples with a
    NaN coordinate; the tuples that are [==] to the zero tuple. *)
Definition R3_eqb (a b : R3Element float) : bool :=
  (x a =? x b)%float && (y a =? y b)%float && (z a =? z b)%float.

Definition R3_has_nan (a : R3Element float) : bool :=
  PrimFloat.is_nan (x a) || PrimFloat.is_nan (y a)
  || PrimFloat.is_nan (z a).

Definition R3_is_zero (a : R3Element float) : bool :=
  R3_eqb a R3_zero.

(** The 27 bivectors whose coordinates are -1, 0 or 1, and the Jacobi sum
    on every three of them. *)
Definition unit_coordinates : list float := [(-1)%float; 0%float; 1%float].

Definition unit_bivectors {Frame : Type} : list (Bivector float Frame) :=
  flat_map
    (fun cx =>
       flat_map
         (fun cy =>
            map (fun cz => Build_Bivector (Build_R3Element cx cy cz))
              unit_coordinates)
         unit_coordinates)
    unit_coordinates.

Definition Jacobi_on_units {Frame : Type} : bool :=
  forallb
    (fun p : Bivector float Frame =>
       forallb
         (fun q =>
            forallb
              (fun r => R3_is_zero (Bivector_coordinates (Jacobi p q r)))
              unit_bivectors)
         unit_bivectors)
    unit_bivectors.

End Geometry.

(* ===================================================================== *)
(** * Trajectories and the N-body system of physics/n_body_system_test.cpp *)
(* ===================================================================== *)

Module Dynamics.

Import Physics Geometry.
Local Open Scope float_scope.

Definition Time : Type := Quantity.
Definition Length : Type := Quantity.
Definition Speed : Type := Quantity.
Definition Acceleration : Type := Quantity.

(** Code that runs after a [CHECK] runs only if the check passed. *)
Definition bind {A B : Type} (c : Checked A) (k : A -> Checked B)
  : Checked B :=
  match c with
  | Ok a => k a
  | Fatal message => Fatal message
  end.

Notation "x <- c ;; k" := (bind c (fun x => k))
  (at level 61, c at next level, right associativity).

(** [π] of [quantities/numbers.hpp]: the double nearest to the number. *)
Definition π : float := 3.14159265358979323846264338327950288.

(** [Pow<3>] and [Sqrt] of [quantities/], on the doubles of quantities. *)
Definition Pow3 (q : Quantity) : Quantity := q * q * q.
Definition Sqrt (q : Quantity) : Quantity := PrimFloat.sqrt q.

Section Trajectories.
Context {Frame : Type}.

(** [Vector::Norm()], on doubles. *)
Definition Norm (v : Vector Quantity Frame) : Quantity :=
  R3_Norm_double (Vector_coordinates v).

(** Modelled from the spec: [Barycentre], of [geometry/], is missing.
    "Barycentre over N points and N positive weights returns the
    weighted affine combination; weights need not be normalized
    (implementation divides by their sum); fails (reports an error) if the
    weight sum is zero"; here for the two points of the test, a point
    being given by its coordinates in the frame. *)
Definition Barycentre (q1 : Vector Quantity Frame) (weight1 : Quantity)
    (q2 : Vector Quantity Frame) (weight2 : Quantity)
  : Checked (Vector Quantity Frame) :=
  let sum := Vector_add (Vector_scale weight1 q1) (Vector_scale weight2 q2) in
  let weight := weight1 + weight2 in
  if weight =? 0 then Fatal "Barycentre of weights of sum zero"%string
  else Ok (Build_Vector
             (Build_R3Element (x (Vector_coordinates sum) / weight)
                              (y (Vector_coordinates sum) / weight)
                              (z (Vector_coordinates sum) / weight))).

(** One sample of a trajectory. *)
Record Sample : Type := Build_Sample {
  sample_time : Time;
  sample_position : Vector Length Frame;
  sample_velocity : Vector Speed Frame
}.

(** Modelled from the spec: [physics/trajectory.hpp] is missing.  A
    trajectory is an "append-only ordered sequence of (time,
    position, velocity) samples"; the oldest sample comes first. *)
Record Trajectory : Type := Build_Trajectory {
  timeline : list Sample
}.

Definition empty_trajectory : Trajectory := Build_Trajectory [].

Definition last_sample (trajectory : Trajectory) : option Sample :=
  last (map Some (timeline trajectory)) None.

Definition last_time (trajectory : Trajectory) : option Time :=
  option_map sample_time (last_sample trajectory).

(** Modelled from the spec: "Append(position, velocity, time) requires time
    strictly greater than the last appended time (or the trajectory is
    empty); violating this is an error, not silently ignored". *)
Definition Append (trajectory : Trajectory)
    (position : Vector Length Frame) (velocity : Vector Speed Frame)
    (time : Time) : Checked Trajectory :=
  let appended :=
    Build_Trajectory
      (timeline trajectory ++ [Build_Sample time position velocity]) in
  match last_time trajectory with
  | None => Ok appended
  | Some last =>
      if last <? time then Ok appended
      else Fatal "Append out of order"%string
  end.

(** "positions()/velocities() return the full ordered sequence". *)
Definition positions (trajectory : Trajectory) : list (Vector Length Frame) :=
  map sample_position (timeline trajectory).

Definition velocities (trajectory : Trajectory) : list (Vector Speed Frame) :=
  map sample_velocity (timeline trajectory).

Definition times (trajectory : Trajectory) : list Time :=
  map sample_time (timeline trajectory).

(** "Time strictly increasing": each sample is strictly later, as doubles
    compare, than the one before it. *)
Definition strictly_increasing (trajectory : Trajectory) : Prop :=
  Sorted (fun earlier later : Time => (earlier <? later) = true)
         (times trajectory).

End Trajectories.
Arguments Sample Frame : clear implicits.
Arguments Trajectory Frame : clear implicits.

(** ** The SPRK integrator *)

(** Modelled from the spec: the SPRK integrator is missing.  Its
    configuration is "a named coefficient set [...] selecting fixed
    arrays of step-splitting coefficients (a,b)". *)
Record Coefficients : Type := Build_Coefficients {
  a : list Quantity;
  b : list Quantity
}.

(** Modelled from the spec: "Initialize(coefficients) must be called once
    before stepping; stepping with uninitialized coefficients is an
    error". *)
Record SPRKIntegrator : Type := Build_SPRKIntegrator {
  coefficients : option Coefficients
}.

Definition uninitialized : SPRKIntegrator := Build_SPRKIntegrator None.

Definition Initialize (coefficients : Coefficients)
    (integrator : SPRKIntegrator) : SPRKIntegrator :=
  Build_SPRKIntegrator (Some coefficients).

(** Modelled from the spec: the coefficient set tagged "5th-order optimal",
    whose tables are missing from the sources and from the spec; they are
    those of the optimal six-stage method of order 5 of McLachlan and Atela
    (1992).  Each table adds up to 1. *)
Definition Order5Optimal : Coefficients :=
  Build_Coefficients
    [0.339839625839110000; -0.088601336903027329; 0.5858564768259621188;
     -0.603039356536491888; 0.3235807965546976394; 0.4423637942197494587]
    [0.1193900292875672758; 0.6989273703824752308; -0.1713123582716007754;
     0.4012695022513534480; 0.0107050818482359840; -0.0589796254980311632].

Section NBodySystems.
Context {Frame : Type}.

(** The position and velocity of one body. *)
Record DegreesOfFreedom : Type := Build_DegreesOfFreedom {
  position : Vector Length Frame;
  velocity : Vector Speed Frame
}.

Inductive MasslessBody : Type := Build_MasslessBody.

(** Modelled from the spec: [physics/n_body_system.hpp] is missing.  The
    system "owns the full body list (split into
    massive and massless) and one trajectory per body, all in one frame";
    the trajectories of the massive bodies come first. *)
Record NBodySystem : Type := Build_NBodySystem {
  massive_bodies : list MassiveBody;
  massless_bodies : list MasslessBody;
  trajectories : list (Trajectory Frame)
}.

(** Modelled from the spec: the acceleration of a body at [q] due to a
    massive body at [source], "pairwise inverse-square law along the
    separating displacement vector"; coincident points are a "numerical
    degeneracy" with "defined behavior (e.g., zero contribution)". *)
Definition GravitationalAcceleration (source_body : MassiveBody)
    (source q : Vector Length Frame) : Vector Acceleration Frame :=
  let displacement := Vector_sub source q in
  let squared_distance := Vector_InnerProduct displacement displacement in
  if squared_distance =? 0 then Vector_zero
  else
    Vector_scale
      (gravitational_parameter source_body
       / (squared_distance * Sqrt squared_distance))
      displacement.

(** Modelled from the spec: "the total gravitational acceleration
    contributed by every massive body [...] A body does not exert force on
    itself": the sources are numbered from [source_index], and the body
    numbered [body_index] is skipped. *)
Fixpoint TotalAcceleration (body_index : nat) (q : Vector Length Frame)
    (source_index : nat) (bodies : list MassiveBody)
    (sources : list (Vector Length Frame)) : Vector Acceleration Frame :=
  match bodies, sources with
  | source_body :: bodies', source :: sources' =>
      let others :=
        TotalAcceleration body_index q (S source_index) bodies' sources' in
      if Nat.eqb body_index source_index then others
      else Vector_add (GravitationalAcceleration source_body source q) others
  | _, _ => Vector_zero
  end.

(** The accelerations of the bodies at [qs], numbered from [body_index],
    under the massive bodies, which are at the first of [all_positions]. *)
Fixpoint Accelerations (body_index : nat) (bodies : list MassiveBody)
    (all_positions qs : list (Vector Length Frame))
  : list (Vector Acceleration Frame) :=
  match qs with
  | [] => []
  | q :: qs' =>
      TotalAcceleration body_index q 0 bodies all_positions
      :: Accelerations (S body_index) bodies all_positions qs'
  end.

(** [q + h * v], for every body. *)
Fixpoint Advance (h : Quantity) (qs vs : list (Vector Quantity Frame))
  : list (Vector Quantity Frame) :=
  match qs, vs with
  | q :: qs', v :: vs' => Vector_add q (Vector_scale h v) :: Advance h qs' vs'
  | _, _ => []
  end.

(** Modelled from the spec: "for each sub-stage i, advance all momenta using
    accelerations evaluated at the current positions scaled by coefficient
    b_i·dt, then advance all positions using the updated velocities scaled
    by coefficient a_i·dt; repeat for all stages in the coefficient set". *)
Fixpoint Stages (stage_a stage_b : list Quantity) (bodies : list MassiveBody)
    (dt : Time) (qs : list (Vector Length Frame))
    (vs : list (Vector Speed Frame))
  : list (Vector Length Frame) * list (Vector Speed Frame) :=
  match stage_a, stage_b with
  | a_i :: stage_a', b_i :: stage_b' =>
      let vs' := Advance (b_i * dt) vs (Accelerations 0 bodies qs qs) in
      let qs' := Advance (a_i * dt) qs vs' in
      Stages stage_a' stage_b' bodies dt qs' vs'
  | _, _ => (qs, vs)
  end.

Fixpoint Combine (qs : list (Vector Length Frame))
    (vs : list (Vector Speed Frame)) : list DegreesOfFreedom :=
  match qs, vs with
  | q :: qs', v :: vs' => Build_DegreesOfFreedom q v :: Combine qs' vs'
  | _, _ => []
  end.

(** One step of size [dt] of all the bodies. *)
Definition Step (coefficients : Coefficients) (bodies : list MassiveBody)
    (dt : Time) (states : list DegreesOfFreedom) : list DegreesOfFreedom :=
  let '(qs, vs) :=
    Stages (a coefficients) (b coefficients) bodies dt
      (map position states) (map velocity states) in
  Combine qs vs.

(** Modelled from the spec: "for each requested step of size dt"; a
    duration requests the number of steps nearest to [duration / dt] (the
    spec does not say how the quotient becomes a number of steps). *)
Definition requested_steps (duration dt : Time) : nat :=
  match Prim2SF (duration / dt + 0.5) with
  | S754_finite false m e =>
      Z.to_nat
        (if (0 <=? e)%Z then Z.pos m * 2 ^ e else Z.pos m / 2 ^ (- e))%Z
  | _ => O
  end.

Definition degrees_of_freedom (sample : Sample Frame) : DegreesOfFreedom :=
  Build_DegreesOfFreedom (sample_position sample) (sample_velocity sample).

(** The latest state of every body, when every trajectory has one. *)
Fixpoint current_states (ts : list (Trajectory Frame))
  : option (list DegreesOfFreedom) :=
  match ts with
  | [] => Some []
  | t :: ts' =>
      match last_sample t, current_states ts' with
      | Some sample, Some states => Some (degrees_of_freedom sample :: states)
      | _, _ => None
      end
  end.

Definition current_time (ts : list (Trajectory Frame)) : option Time :=
  match ts with
  | [] => None
  | t :: _ => last_time t
  end.

(** Modelled from the spec: the new state of every body goes to its
    trajectory, or none does: "a step either completes fully [...] or the
    whole Integrate call reports an error before any partial trajectory
    mutation for that step is committed". *)
Fixpoint AppendAll (ts : list (Trajectory Frame))
    (states : list DegreesOfFreedom) (time : Time)
  : Checked (list (Trajectory Frame)) :=
  match ts, states with
  | [], [] => Ok []
  | t :: ts', state :: states' =>
      match Append t (position state) (velocity state) time with
      | Fatal message => Fatal message
      | Ok t' =>
          match AppendAll ts' states' time with
          | Fatal message => Fatal message
          | Ok appended => Ok (t' :: appended)
          end
      end
  | _, _ => Fatal "One trajectory per body"%string
  end.

(** Modelled from the spec: the steps of [Integrate]; each advances every
    body by [dt], and the new states are appended "to each body's trajectory
    at multiples of sampling_period". *)
Fixpoint IntegrateSteps (steps : nat) (coefficients : Coefficients)
    (bodies : list MassiveBody) (dt : Time) (sampling_period : Z)
    (step_index : Z) (time : Time) (states : list DegreesOfFreedom)
    (ts : list (Trajectory Frame))
  : Checked unit * list (Trajectory Frame) :=
  match steps with
  | O => (Ok tt, ts)
  | S steps' =>
      let states' := Step coefficients bodies dt states in
      let time' := time + dt in
      let step_index' := (step_index + 1)%Z in
      if (step_index' mod sampling_period =? 0)%Z then
        match AppendAll ts states' time' with
        | Fatal message => (Fatal message, ts)
        | Ok ts' =>
            IntegrateSteps steps' coefficients bodies dt sampling_period
              step_index' time' states' ts'
        end
      else
        IntegrateSteps steps' coefficients bodies dt sampling_period
          step_index' time' states' ts
  end.

(** Modelled from the spec: "Integrate(integrator, duration, dt,
    sampling_period)" "fails (reports an error, does not silently degrade) if
    dt is non-positive, if sampling_period is not a positive multiple
    relationship to dt, or if any body collection is empty of massive bodies
    while massless bodies are present"; "stepping with uninitialized
    coefficients is an error".  The result is the outcome together with the
    system as the call leaves it. *)
Definition Integrate (integrator : SPRKIntegrator) (duration dt : Time)
    (sampling_period : Z) (system : NBodySystem)
  : Checked unit * NBodySystem :=
  if dt <=? 0 then
    (Fatal "Non-positive time step"%string, system)
  else if (sampling_period <=? 0)%Z then
    (Fatal "Non-positive sampling period"%string, system)
  else if match massive_bodies system, massless_bodies system with
          | [], _ :: _ => true
          | _, _ => false
          end then
    (Fatal "No massive body"%string, system)
  else
    match coefficients integrator,
          current_time (trajectories system),
          current_states (trajectories system) with
    | None, _, _ => (Fatal "Uninitialized integrator"%string, system)
    | Some coefficients, Some time, Some states =>
        let '(outcome, ts) :=
          IntegrateSteps (requested_steps duration dt) coefficients
            (massive_bodies system) dt sampling_period 0 time states
            (trajectories system) in
        (outcome,
         Build_NBodySystem (massive_bodies system) (massless_bodies system) ts)
    | Some _, _, _ => (Fatal "No initial state"%string, system)
    end.

(** The trajectories of a system carry the same time stamps. *)
Definition synchronized (ts : list (Trajectory Frame)) : Prop :=
  forall t1 t2, In t1 ts -> In t2 ts -> times t1 = times t2.

End NBodySystems.
Arguments DegreesOfFreedom Frame : clear implicits.
Arguments NBodySystem Frame : clear implicits.

End Dynamics.

(* ===================================================================== *)
(** * The test fixtures *)
(* ===================================================================== *)

Module Fixtures.

Import Physics Geometry Dynamics.
Local Open Scope float_scope.

(** ** [GrassmannTests] *)

(** [e] of [quantities/], the base of the natural logarithm: the double
    nearest to the number. *)
Definition e_number : float :=
  2.71828182845904523536028747135266249775724709369995.

(** The operands [u], [v], [w] and [a] of [GrassmannAlgebra], which are
    those of the fixture without their units. *)
Definition u_double : R3Element float := Build_R3Element 3 (-42) 0.
Definition v_double : R3Element float :=
  Build_R3Element (-π) (-e_number) (-1).
Definition w_double : R3Element float := Build_R3Element 2 2 2.
Definition a_double : R3Element float := Build_R3Element 1.2 2.3 3.4.

(** Operands on which the arithmetic of doubles overflows, underflows or
    meets a NaN. *)
Definition huge : R3Element float := Build_R3Element 1e200 1e200 0.
Definition huge_x : R3Element float := Build_R3Element 1e200 0 0.
Definition huge_y : R3Element float := Build_R3Element 0 1e200 0.
Definition ones : R3Element float := Build_R3Element 1 1 1.
Definition tiny : R3Element float := Build_R3Element 1e-200 0 0.
Definition not_a_number : R3Element float := Build_R3Element nan 0 0.

(** ** [MassiveBody] *)

(** A mass whose product with the gravitational constant underflows, and
    a gravitational parameter whose quotient by it overflows. *)
Definition tiny_mass : Mass := 1e-320.
Definition huge_parameter : GravitationalParameter := 1e300.

(** ** [NBodySystemTest] *)

(** The gravitational constant, in SI units. *)
Definition G_SI : Quantity := 6.67384e-11.

(** What [SetUp] leaves in the fixture. *)
Record NBodySystemTest : Type := Build_NBodySystemTest {
  integrator_ : SPRKIntegrator;
  period_ : Time;
  system_ : NBodySystem EarthMoonBarycentricFrame
}.

Section SetUp.
Variable GravitationalConstant : Quantity.

(** [NBodySystemTest::SetUp]: "the Earth-Moon system, roughly, with a
    circular orbit with velocities in the center-of-mass frame".  The two
    bodies are massive bodies of the masses given; [SIUnit] is 1. *)
Definition SetUp : Checked NBodySystemTest :=
  let integrator := Initialize Order5Optimal uninitialized in
  body1 <- MassiveBody_from_mass GravitationalConstant 6E24 ;;
  body2 <- MassiveBody_from_mass GravitationalConstant 7E22 ;;
  let q1 : Vector Length EarthMoonBarycentricFrame :=
    Build_Vector (Build_R3Element 0 0 0) in
  let q2 : Vector Length EarthMoonBarycentricFrame :=
    Build_Vector (Build_R3Element 0 4E8 0) in
  centre_of_mass <- Barycentre q1 (mass body1) q2 (mass body2) ;;
  let semi_major_axis := Norm (Vector_sub q1 q2) in
  let period :=
    2 * π * Sqrt (Pow3 semi_major_axis
                  / (gravitational_parameter body1
                     + gravitational_parameter body2)) in
  let v1 : Vector Speed EarthMoonBarycentricFrame :=
    Build_Vector
      (Build_R3Element
         (-2 * π * Norm (Vector_sub q1 centre_of_mass) / period) 0 0) in
  let v2 : Vector Speed EarthMoonBarycentricFrame :=
    Build_Vector
      (Build_R3Element
         (2 * π * Norm (Vector_sub q2 centre_of_mass) / period) 0 0) in
  overall_velocity <- Barycentre v1 (mass body1) v2 (mass body2) ;;
  trajectory1 <-
    Append empty_trajectory (Vector_sub q1 centre_of_mass)
      (Vector_sub v1 overall_velocity) 0 ;;
  trajectory2 <-
    Append empty_trajectory (Vector_sub q2 centre_of_mass)
      (Vector_sub v2 overall_velocity) 0 ;;
  Ok (Build_NBodySystemTest integrator period
        (Build_NBodySystem [body1; body2] [] [trajectory1; trajectory2])).

End SetUp.

(** The system of the fixture and its two trajectories after [SetUp], for
    the gravitational constant above, coordinates rounded to integers. *)
Definition trajectory1 : Trajectory EarthMoonBarycentricFrame :=
  Build_Trajectory
    [Build_Sample 0 (Build_Vector (Build_R3Element 0 (-4612850) 0))
       (Build_Vector (Build_R3Element (-12) 0 0))].
Definition trajectory2 : Trajectory EarthMoonBarycentricFrame :=
  Build_Trajectory
    [Build_Sample 0 (Build_Vector (Build_R3Element 0 395387150 0))
       (Build_Vector (Build_R3Element 995 0 0))].

Definition earth_mass : Mass := 6E24.
Definition moon_mass : Mass := 7E22.

Definition earth_moon : NBodySystem EarthMoonBarycentricFrame :=
  Build_NBodySystem
    [Build_MassiveBody (earth_mass * G_SI) earth_mass;
     Build_MassiveBody (moon_mass * G_SI) moon_mass]
    []
    [trajectory1; trajectory2].

End Fixtures.

(* ===================================================================== *)
(** * The order of the doubles behind [ULPDistance] *)
(* ===================================================================== *)

Module Ordinals.

Import Numerics.
Local Open Scope Z_scope.

(** The 63 bits of a double below its sign bit: the biased exponent and
    the fraction, read as one integer. *)
Definition magnitude (x : double) : Z := Z.land (bits x) (Z.ones 63).

(** The rank of a double on the line of the sign-magnitude integers: the
    magnitude, counted downwards from 0 for a double whose sign bit is
    set.  The two zeros have rank 0. *)
Definition ordinal (x : double) : Z :=
  if sign_bit x then - magnitude x else magnitude x.

(** The magnitude that [double_of_float] gives a finite number of
    mantissa [m] and exponent [e], and the rank of each value of the
    floating-point arithmetic of the kernel. *)
Definition key (m : positive) (e : Z) : Z :=
  if Z.pos m <? 2 ^ 52 then Z.pos m
  else (e + 1075) * 2 ^ 52 + (Z.pos m - 2 ^ 52).

Definition spec_ordinal (f : spec_float) : Z :=
  match f with
  | S754_zero _ => 0
  | S754_infinity s => if s then - (2047 * 2 ^ 52) else 2047 * 2 ^ 52
  | S754_nan => 2047 * 2 ^ 52 + 2 ^ 51
  | S754_finite s m e => if s then - key m e else key m e
  end.

(** [2] and [-2], the doubles of least absolute value whose biased
    exponent is 1024. *)
Definition two : double := of_bits 0x4000000000000000.
Definition minus_two : double := of_bits 0xC000000000000000.

(** Two more NaNs: the quiet NaN with the last bit of the fraction set,
    and the quiet NaN with the sign bit set. *)
Definition quiet_nan_payload : double := of_bits 0x7FF8000000000001.
Definition minus_quiet_nan : double := of_bits 0xFFF8000000000000.

End Ordinals.

(* ===================================================================== *)
(** * The error norms of testing_utilities/numerics_body.hpp *)
(* ===================================================================== *)

Module ErrorNorms.

Import Physics Geometry.
Local Open Scope float_scope.

(** [expected - actual]: the [operator-] of the type [T] of the
    templates, on quantities and on tuples of quantities. *)
Class Difference (T : Type) : Type := minus : T -> T -> T.

#[export] Instance Difference_Quantity : Difference Quantity := PrimFloat.sub.

#[export] Instance Difference_R3Element : Difference (R3Element Quantity) :=
  R3_sub.

(** Modelled from the spec: [quantities::Abs] is missing.  A quantity is
    "backed by a double-precision float" and [Abs] is one of its
    operations: the absolute value of the double.  [Dimensionless] is the
    quantity of no dimension. *)
Definition Dimensionless : Type := Quantity.

Definition Abs (q : Quantity) : Quantity := PrimFloat.abs q.

(** [AbsoluteError(T const& expected, T const& actual, Norm const norm)]. *)
Definition AbsoluteError {T NormType : Type} {difference : Difference T}
    (expected actual : T) (norm : T -> NormType) : NormType :=
  norm (minus expected actual).

(** The overloads of [AbsoluteError] on [Dimensionless], on
    [Quantity<Dimensions>] and on [R3Element<Scalar>], whose norm is
    [v.Norm()]. *)
Definition AbsoluteError_Dimensionless (expected actual : Dimensionless)
  : Dimensionless :=
  AbsoluteError expected actual Abs.

Definition AbsoluteError_Quantity (expected actual : Quantity) : Quantity :=
  AbsoluteError expected actual Abs.

Definition AbsoluteError_R3Element (expected actual : R3Element Quantity)
  : Quantity :=
  AbsoluteError expected actual (fun v => R3_Norm_double v).

(** [RelativeError(T const& expected, T const& actual, Norm const norm)];
    the quotient of two quantities of one dimension is a [Dimensionless]. *)
Definition RelativeError {T : Type} {difference : Difference T}
    (expected actual : T) (norm : T -> Quantity) : Dimensionless :=
  norm (minus expected actual) / norm expected.

(** The overload of [RelativeError] on [Dimensionless]. *)
Definition RelativeError_Dimensionless (expected actual : Dimensionless)
  : Dimensionless :=
  RelativeError expected actual Abs.

End ErrorNorms.

(* ===================================================================== *)
(** * The messages of physics/massive_body_body.hpp *)
(* ===================================================================== *)

Module Serialization.

Import Physics.
Local Open Scope float_scope.

(** The enumerations of frame tags that [ReadFromMessage] dispatches on,
    with the enumerators that its [switch] statements list. *)
Inductive PluginTag : Type :=
| ALICE_SUN
| ALICE_WORLD
| BARYCENTRIC
| OLD_BARYCENTRIC
| RENDERING
| WORLD
| WORLD_SUN.

Inductive SolarSystemTag : Type :=
| ICRF_J2000_ECLIPTIC
| ICRF_J2000_EQUATOR.

Inductive TestTag : Type :=
| TEST
| TEST1
| TEST2
| FROM
| THROUGH
| TO.

(** [Frame<Tag, serialization::Frame::value, true>]: an inertial frame,
    by its tag. *)
Inductive FrameTag : Type :=
| Plugin (tag : PluginTag)
| SolarSystem (tag : SolarSystemTag)
| Test (tag : TestTag).

(** [google::protobuf::EnumDescriptor]: the descriptors of the three
    enumerations and any other one, with its [name()]. *)
Inductive EnumDescriptor : Type :=
| PluginTag_descriptor
| SolarSystemTag_descriptor
| TestTag_descriptor
| Other_descriptor (name : string).

Definition EnumDescriptor_name (descriptor : EnumDescriptor) : string :=
  match descriptor with
  | PluginTag_descriptor => "PluginTag"
  | SolarSystemTag_descriptor => "SolarSystemTag"
  | TestTag_descriptor => "TestTag"
  | Other_descriptor name => name
  end.

(** [google::protobuf::EnumValueDescriptor]: [type()] and [number()]. *)
Record EnumValueDescriptor : Type := Build_EnumValueDescriptor {
  type : EnumDescriptor;
  number : Z
}.

(** What the two functions call and the sources do not hold: the message
    of a quantity with [Quantity::WriteToMessage] and
    [Quantity::ReadFromMessage], the message of a frame with
    [geometry::ReadFrameFromMessage], and the numbers of the enumerators
    of the three enumerations. *)
Class Messages : Type := {
  Quantity_message : Type;
  Quantity_default_instance : Quantity_message;
  Quantity_WriteToMessage : Quantity -> Quantity_message -> Quantity_message;
  Quantity_ReadFromMessage : Quantity_message -> Checked Quantity;
  OblateBody_message : Type;
  Frame_message : Type;
  frame : OblateBody_message -> Frame_message;
  ReadFrameFromMessage : Frame_message -> EnumValueDescriptor * bool;
  PluginTag_number : PluginTag -> Z;
  SolarSystemTag_number : SolarSystemTag -> Z;
  TestTag_number : TestTag -> Z
}.

(** The descriptor and the number of the enumerator behind a frame tag. *)
Definition FrameTag_descriptor (frame_tag : FrameTag) : EnumDescriptor :=
  match frame_tag with
  | Plugin _ => PluginTag_descriptor
  | SolarSystem _ => SolarSystemTag_descriptor
  | Test _ => TestTag_descriptor
  end.

Definition FrameTag_number {messages : Messages} (frame_tag : FrameTag) : Z :=
  match frame_tag with
  | Plugin tag => PluginTag_number tag
  | SolarSystem tag => SolarSystemTag_number tag
  | Test tag => TestTag_number tag
  end.

Section MassiveBodyMessages.
Context {messages : Messages}.

(** [serialization::MassiveBody]: the field [gravitational_parameter] and
    the extension [serialization::OblateBody::oblate_body], each present
    or absent. *)
Record MassiveBody_message : Type := Build_MassiveBody_message {
  gravitational_parameter_field : option Quantity_message;
  oblate_body_extension : option OblateBody_message
}.

(** [serialization::Body]: the field [massive_body]. *)
Record Body_message : Type := Build_Body_message {
  massive_body_field : option MassiveBody_message
}.

Definition MassiveBody_default_instance : MassiveBody_message :=
  {| gravitational_parameter_field := None; oblate_body_extension := None |}.

(** The accessors that protobuf generates: an absent submessage reads as
    the default instance, and its [mutable_] accessor makes it present. *)
Definition gravitational_parameter_of (message : MassiveBody_message)
  : Quantity_message :=
  match gravitational_parameter_field message with
  | Some quantity => quantity
  | None => Quantity_default_instance
  end.

Definition has_massive_body (message : Body_message) : bool :=
  match massive_body_field message with
  | Some _ => true
  | None => false
  end.

Definition massive_body (message : Body_message) : MassiveBody_message :=
  match massive_body_field message with
  | Some massive_body_message => massive_body_message
  | None => MassiveBody_default_instance
  end.

(** [MassiveBody::WriteToMessage(not_null<serialization::MassiveBody*>)]:
    the message after the call, which writes the gravitational parameter
    and nothing else. *)
Definition WriteToMessage (body : MassiveBody)
    (message : MassiveBody_message) : MassiveBody_message :=
  {| gravitational_parameter_field :=
       Some (Quantity_WriteToMessage (gravitational_parameter_ body)
               (gravitational_parameter_of message));
     oblate_body_extension := oblate_body_extension message |}.

(** [MassiveBody::WriteToMessage(not_null<serialization::Body*>)]. *)
Definition WriteToMessage_Body (body : MassiveBody) (message : Body_message)
  : Body_message :=
  {| massive_body_field :=
       Some (WriteToMessage body (massive_body message)) |}.

End MassiveBodyMessages.

(** [OblateBody<Frame>], of [physics/oblate_body.hpp], with its
    [ReadFromMessage]. *)
Class OblateBodies {messages : Messages} : Type := {
  OblateBody : Type;
  OblateBody_ReadFromMessage :
    FrameTag -> MassiveBody_message -> Checked OblateBody
}.

Section ReadMassiveBody.
Context {messages : Messages} {oblate_bodies : OblateBodies}.

(** What a [std::unique_ptr<MassiveBody>] points to: a [MassiveBody], or
    an [OblateBody<Frame>], which derives from it. *)
Inductive MassiveBody_pointer : Type :=
| Massive (body : MassiveBody)
| Oblate (frame_tag : FrameTag) (body : OblateBody).

Variable GravitationalConstant : Quantity.

(** A [switch] over the enumerators of one enumeration: the case whose
    number is the value, if there is one. *)
Definition switch {Tag : Type} (tag_number : Tag -> Z) (cases : list Tag)
    (value : Z) : option Tag :=
  find (fun tag => Z.eqb value (tag_number tag)) cases.

(** [OBLATE_BODY_TAG_VALUE_CASE(value)]. *)
Definition OBLATE_BODY_TAG_VALUE_CASE (frame_tag : FrameTag)
    (message : MassiveBody_message) : Checked MassiveBody_pointer :=
  match OblateBody_ReadFromMessage frame_tag message with
  | Ok body => Ok (Oblate frame_tag body)
  | Fatal failure => Fatal failure
  end.

(** [MassiveBody::ReadFromMessage(serialization::MassiveBody const&)]. *)
Definition ReadFromMessage (message : MassiveBody_message)
  : Checked MassiveBody_pointer :=
  match oblate_body_extension message with
  | Some extension =>
      let '(enum_value_descriptor, is_inertial) :=
        ReadFrameFromMessage (frame extension) in
      if negb is_inertial then Fatal "Check failed: is_inertial"%string
      else
        let enum_descriptor := type enum_value_descriptor in
        let plugin_case :=
          match enum_descriptor with
          | PluginTag_descriptor =>
              switch PluginTag_number
                [ALICE_SUN; ALICE_WORLD; BARYCENTRIC; OLD_BARYCENTRIC;
                 RENDERING; WORLD; WORLD_SUN]
                (number enum_value_descriptor)
          | _ => None
          end in
        match plugin_case with
        | Some tag => OBLATE_BODY_TAG_VALUE_CASE (Plugin tag) message
        | None =>
            let solar_system_case :=
              match enum_descriptor with
              | SolarSystemTag_descriptor =>
                  switch SolarSystemTag_number
                    [ICRF_J2000_ECLIPTIC; ICRF_J2000_EQUATOR]
                    (number enum_value_descriptor)
              | _ => None
              end in
            match solar_system_case with
            | Some tag => OBLATE_BODY_TAG_VALUE_CASE (SolarSystem tag) message
            | None =>
                let test_case :=
                  match enum_descriptor with
                  | TestTag_descriptor =>
                      switch TestTag_number
                        [TEST; TEST1; TEST2; FROM; THROUGH; TO]
                        (number enum_value_descriptor)
                  | _ => None
                  end in
                match test_case with
                | Some tag => OBLATE_BODY_TAG_VALUE_CASE (Test tag) message
                | None => Fatal (EnumDescriptor_name enum_descriptor)
                end
            end
        end
  | None =>
      match Quantity_ReadFromMessage (gravitational_parameter_of message) with
      | Ok gravitational_parameter =>
          match MassiveBody_from_gravitational_parameter
                  GravitationalConstant gravitational_parameter with
          | Ok body => Ok (Massive body)
          | Fatal failure => Fatal failure
          end
      | Fatal failure => Fatal failure
      end
  end.

(** [MassiveBody::ReadFromMessage(serialization::Body const&)]. *)
Definition ReadFromMessage_Body (message : Body_message)
  : Checked MassiveBody_pointer :=
  if has_massive_body message then ReadFromMessage (massive_body message)
  else Fatal "Check failed: message.has_massive_body()"%string.

End ReadMassiveBody.

(** Messages for the examples: the message of a quantity holds its
    double, the message of a frame holds what is read from it, and the
    enumerators are numbered from 1. *)
#[export] Instance magnitude_messages : Messages := {
  Quantity_message := Quantity;
  Quantity_default_instance := 0;
  Quantity_WriteToMessage := fun quantity _ => quantity;
  Quantity_ReadFromMessage := fun message => Ok message;
  OblateBody_message := EnumValueDescriptor * bool;
  Frame_message := EnumValueDescriptor * bool;
  frame := fun extension => extension;
  ReadFrameFromMessage := fun message => message;
  PluginTag_number := fun tag =>
    match tag with
    | ALICE_SUN => 1
    | ALICE_WORLD => 2
    | BARYCENTRIC => 3
    | OLD_BARYCENTRIC => 4
    | RENDERING => 5
    | WORLD => 6
    | WORLD_SUN => 7
    end%Z;
  SolarSystemTag_number := fun tag =>
    match tag with
    | ICRF_J2000_ECLIPTIC => 1
    | ICRF_J2000_EQUATOR => 2
    end%Z;
  TestTag_number := fun tag =>
    match tag with
    | TEST => 1
    | TEST1 => 2
    | TEST2 => 3
    | FROM => 4
    | THROUGH => 5
    | TO => 6
    end%Z
}.

(** Oblate bodies for the examples: an oblate body is the tag of the
    frame it was read in. *)
#[export] Instance tagged_oblate_bodies : OblateBodies := {
  OblateBody := FrameTag;
  OblateBody_ReadFromMessage := fun frame_tag _ => Ok frame_tag
}.

Definition tagged_body (frame_tag : FrameTag) : OblateBody := frame_tag.

(** A message that nothing was written to, and the message of an oblate
    body in the frame [TEST1]. *)
Definition fresh_message : Body_message := Build_Body_message None.

Definition oblate_message : MassiveBody_message :=
  {| gravitational_parameter_field := None;
     oblate_body_extension :=
       Some (Build_EnumValueDescriptor TestTag_descriptor 2, true) |}.

End Serialization.

(* ===================================================================== *)
(** * The Mathematica output of physics/n_body_system_test.cpp *)
(* ===================================================================== *)

Module Mathematica.

Import Geometry.
Local Open Scope string_scope.

(** The characters that the literals of the test escape. *)
Definition newline : string := String "010"%char EmptyString.
Definition quote : string := String "034"%char EmptyString.
Definition backslash : string := String "092"%char EmptyString.

Section ToMathematicaString.
Context {Scalar Frame : Type}.

(** [quantities::DebugString], of [quantities/]. *)
Variable DebugString : Scalar -> string.

(** [ToMathematicaString(Vector<Scalar, Frame> const&)]. *)
Definition ToMathematicaString (vector : Vector Scalar Frame) : string :=
  let coordinates := Vector_coordinates vector in
  let result := "{" in
  let result := result ++ DebugString (x coordinates) in
  let result := result ++ "," in
  let result := result ++ DebugString (y coordinates) in
  let result := result ++ "," in
  let result := result ++ DebugString (z coordinates) in
  let result := result ++ "}" in
  result.

(** [mathematica_line]: 53 asterisks between parentheses, between two
    line feeds. *)
Definition mathematica_line : string :=
  newline ++ "(" ++ string_of_list_ascii (repeat "*"%char 53) ++ ")"
  ++ newline.

(** The two literals around the vectors. *)
Definition opening : string :=
  "ToExpression[StringReplace[" ++ quote ++ newline ++ "{".

Definition closing : string :=
  "}" ++ quote ++ "," ++ newline
  ++ "{" ++ quote ++ " m" ++ quote ++ "->" ++ quote ++ quote ++ ","
  ++ quote ++ "e" ++ quote ++ "->" ++ quote ++ "*^" ++ quote ++ ", "
  ++ quote ++ backslash ++ "n" ++ quote ++ "->" ++ quote ++ quote ++ ", "
  ++ quote ++ " " ++ quote ++ "->" ++ quote ++ quote ++ "}]];".

(** The body of the loop: [result] and [separator] after one more
    vector. *)
Definition append_vector (state : string * string)
    (vector : Vector Scalar Frame) : string * string :=
  let '(result, separator) := state in
  let result := result ++ separator in
  let result := result ++ ToMathematicaString vector in
  (result, "," ++ newline).

(** [ToMathematicaString(std::vector<Vector<Scalar, Frame>> const&)]. *)
Definition ToMathematicaString_vectors
    (vectors : list (Vector Scalar Frame)) : string :=
  let result := mathematica_line in
  let result := result ++ opening in
  let separator := EmptyString in
  let '(result, separator) :=
    fold_left append_vector vectors (result, separator) in
  let result := result ++ closing in
  let result := result ++ mathematica_line in
  result.

End ToMathematicaString.

End Mathematica.

(* ===================================================================== *)
(** * Classes of IEEE 754 binary64 values *)
(* ===================================================================== *)

Module FloatClasses.

(** The values whose sign bit is clear, NaN counted among them; the two
    zeros; NaN. *)
Definition sign_clear (a : spec_float) : bool :=
  match a with
  | S754_zero s | S754_infinity s | S754_finite s _ _ => negb s
  | S754_nan => true
  end.

Definition spec_zero (a : spec_float) : bool :=
  match a with S754_zero _ => true | _ => false end.

Definition spec_nan (a : spec_float) : bool :=
  match a with S754_nan => true | _ => false end.

(** The zeros and the infinities: what a product or a quotient that
    underflows or overflows is rounded to. *)
Definition spec_degenerate (a : spec_float) : bool :=
  match a with S754_zero _ | S754_infinity _ => true | _ => false end.

Definition spec_finite_nonzero (a : spec_float) : bool :=
  match a with S754_finite _ _ _ => true | _ => false end.

End FloatClasses.

(* ===================================================================== *)
(** * IEEE 754 binary64, as the kernel specifies it *)
(* ===================================================================== *)

Module FloatTheory.

Import FloatClasses.
Local Open Scope Z_scope.

(** ** The mantissa and the exponent of a finite double *)

Lemma pow2_pos_double (d : positive) : 2 ^ Z.pos d = 2 * 2 ^ (Z.pos d - 1).
Proof.
  rewrite <- Z.pow_succ_r by lia. f_equal. lia.
Qed.

Lemma digits2_pos_spec (m : positive) :
  2 ^ (Z.pos (digits2_pos m) - 1) <= Z.pos m < 2 ^ Z.pos (digits2_pos m).
Proof.
  induction m as [p IH | p IH |]; cbn [digits2_pos].
  - rewrite Pos2Z.inj_succ, Pos2Z.inj_xI, Z.sub_1_r, Z.pred_succ.
    rewrite (Z.pow_succ_r 2 (Z.pos (digits2_pos p))) by lia.
    rewrite (pow2_pos_double (digits2_pos p)) in *. lia.
  - rewrite Pos2Z.inj_succ, (Pos2Z.inj_xO p), Z.sub_1_r, Z.pred_succ.
    rewrite (Z.pow_succ_r 2 (Z.pos (digits2_pos p))) by lia.
    rewrite (pow2_pos_double (digits2_pos p)) in *. lia.
  - cbn. lia.
Qed.

(** A finite double is subnormal, with the least exponent and a mantissa
    below [2 ^ 52], or normal, with a mantissa of 53 bits. *)
Lemma valid_finite (s : bool) (m : positive) (e : Z) :
  valid_binary (S754_finite s m e) = true ->
  (Z.pos m < 2 ^ 52 /\ e = -1074)
  \/ (2 ^ 52 <= Z.pos m < 2 ^ 53 /\ -1074 <= e <= 971).
Proof.
  intros H.
  unfold SpecFloat.valid_binary, SpecFloat.bounded,
    SpecFloat.canonical_mantissa, SpecFloat.fexp, SpecFloat.emin in H.
  change prec with 53 in H. change emax with 1024 in H.
  apply andb_prop in H as [H1 H2].
  apply Z.eqb_eq in H1. apply Z.leb_le in H2.
  pose proof (digits2_pos_spec m) as [Hlo Hhi].
  set (d := Z.pos (digits2_pos m)) in *.
  assert (Hd : 0 < d) by (unfold d; lia).
  destruct (Z.le_gt_cases d 52) as [Hle | Hgt].
  - left. split; [|lia].
    apply Z.lt_le_trans with (1 := Hhi).
    apply Z.pow_le_mono_r; lia.
  - right. assert (d = 53) as Hd53 by lia.
    rewrite Hd53 in Hlo, Hhi. change (53 - 1) with 52 in Hlo. lia.
Qed.

(** ** Comparisons and classes *)

Lemma SFcompare_refl (a : spec_float) :
  SFcompare a a = match a with S754_nan => None | _ => Some Eq end.
Proof.
  destruct a as [s | s | | s m e]; cbn [SFcompare]; try reflexivity.
  - destruct s; reflexivity.
  - rewrite Z.compare_refl, Pos.compare_cont_refl. destruct s; reflexivity.
Qed.

Lemma SFcompare_nan (a b : spec_float) :
  SFcompare a b = None <-> a = S754_nan \/ b = S754_nan.
Proof.
  destruct a as [sa | sa | | sa ma ea], b as [sb | sb | | sb mb eb];
    cbn [SFcompare]; split; try discriminate; auto;
    intros [H | H]; discriminate H.
Qed.

Lemma Prim2SF_zero : Prim2SF 0 = S754_zero false.
Proof. reflexivity. Qed.

Lemma Prim2SF_nan : Prim2SF nan = S754_nan.
Proof. reflexivity. Qed.

Lemma Prim2SF_infinity : Prim2SF infinity = S754_infinity false.
Proof. reflexivity. Qed.

Lemma is_nan_spec (x : float) :
  PrimFloat.is_nan x
  = match Prim2SF x with S754_nan => true | _ => false end.
Proof.
  unfold PrimFloat.is_nan. rewrite eqb_spec. unfold SFeqb.
  rewrite SFcompare_refl. destruct (Prim2SF x); reflexivity.
Qed.

Lemma is_infinity_spec (x : float) :
  PrimFloat.is_infinity x
  = match Prim2SF x with S754_infinity _ => true | _ => false end.
Proof.
  unfold PrimFloat.is_infinity.
  rewrite eqb_spec, abs_spec, Prim2SF_infinity.
  destruct (Prim2SF x) as [s | s | | s m e]; reflexivity.
Qed.

Lemma is_zero_spec (x : float) :
  PrimFloat.is_zero x
  = match Prim2SF x with S754_zero _ => true | _ => false end.
Proof.
  unfold PrimFloat.is_zero. rewrite eqb_spec.
  change (Prim2SF zero) with (S754_zero false).
  destruct (Prim2SF x) as [s | s | | s m e]; try reflexivity;
    destruct s; reflexivity.
Qed.

(** The kernel has one NaN. *)
Lemma is_nan_eq (q : float) : PrimFloat.is_nan q = true -> q = nan.
Proof.
  rewrite is_nan_spec. intros H. apply Prim2SF_inj. rewrite Prim2SF_nan.
  destruct (Prim2SF q); try discriminate H. reflexivity.
Qed.

Lemma nan_mul (q : float) : (nan * q)%float = nan.
Proof.
  apply Prim2SF_inj. rewrite mul_spec, Prim2SF_nan. reflexivity.
Qed.

Lemma nan_div (q : float) : (nan / q)%float = nan.
Proof.
  apply Prim2SF_inj. rewrite div_spec, Prim2SF_nan. reflexivity.
Qed.

Lemma nan_eqb (q : float) : (nan =? q)%float = false.
Proof. rewrite eqb_spec, Prim2SF_nan. reflexivity. Qed.

(** ** Differences and squares, up to the sign *)

(** Rounding to nearest even treats a number and its opposite alike. *)
Lemma SFabs_binary_round_aux (s : bool) (m e : Z) (l : location) :
  SFabs (binary_round_aux prec emax s m e l)
  = SFabs (binary_round_aux prec emax false m e l).
Proof.
  unfold binary_round_aux.
  destruct (shr_fexp prec emax m e l) as [mrs e'].
  destruct (shr_fexp prec emax _ e' loc_Exact) as [mrs' e''].
  destruct (shr_m mrs'); try reflexivity.
  destruct (Z.leb e'' (emax - prec)); reflexivity.
Qed.

Lemma SFabs_binary_normalize (m e : Z) :
  SFabs (binary_normalize prec emax (- m) e false)
  = SFabs (binary_normalize prec emax m e false).
Proof.
  destruct m as [|p|p]; cbn [Z.opp binary_normalize]; try reflexivity;
    unfold binary_round;
    destruct (shl_align p e _) as [mz ez];
    [|symmetry]; apply SFabs_binary_round_aux.
Qed.

Lemma SFabs_SFsub_sym (a b : spec_float) :
  SFabs (SF64sub a b) = SFabs (SF64sub b a).
Proof.
  destruct a as [sa | sa | | sa ma ea], b as [sb | sb | | sb mb eb];
    try reflexivity;
    try (destruct sa, sb; reflexivity).
  unfold SF64sub, SFsub. cbv zeta.
  rewrite (Z.min_comm eb ea), <- SFabs_binary_normalize.
  f_equal. f_equal. lia.
Qed.

Lemma sub_abs_sym (x y : float) : abs (x - y) = abs (y - x).
Proof.
  apply Prim2SF_inj. rewrite !abs_spec, !sub_spec. apply SFabs_SFsub_sym.
Qed.

(** [x - x] is [+0] for a finite [x], and NaN otherwise. *)
Lemma SFsub_diag (a : spec_float) :
  SF64sub a a
  = match a with
    | S754_zero _ | S754_finite _ _ _ => S754_zero false
    | _ => S754_nan
    end.
Proof.
  destruct a as [s | s | | s m e]; try (destruct s; reflexivity);
    try reflexivity.
  unfold SF64sub, SFsub. cbv zeta. rewrite Z.sub_diag. reflexivity.
Qed.

Lemma mul_abs_eq (u v : float) : abs u = abs v -> (u * u = v * v)%float.
Proof.
  intros H. apply (f_equal Prim2SF) in H. rewrite !abs_spec in H.
  apply Prim2SF_inj. rewrite !mul_spec.
  destruct (Prim2SF u) as [su | su | | su mu eu],
           (Prim2SF v) as [sv | sv | | sv mv ev];
    try discriminate H; try reflexivity; cbn [SFabs] in H.
  - destruct su, sv; reflexivity.
  - destruct su, sv; reflexivity.
  - injection H as -> ->. unfold SF64mul, SFmul.
    destruct su, sv; reflexivity.
Qed.

(** ** Commutativity and opposites *)

Lemma SFmul_comm (a b : spec_float) : SF64mul a b = SF64mul b a.
Proof.
  destruct a as [sa | sa | | sa ma ea], b as [sb | sb | | sb mb eb];
    cbn [SF64mul SFmul]; unfold SF64mul, SFmul;
    try rewrite (xorb_comm sb sa); try reflexivity.
  rewrite (Pos.mul_comm mb ma), (Z.add_comm eb ea). reflexivity.
Qed.

Lemma mul_comm (x y : float) : (x * y = y * x)%float.
Proof. apply Prim2SF_inj. rewrite !mul_spec. apply SFmul_comm. Qed.

Lemma SFopp_binary_round_aux (s : bool) (m e : Z) (l : location) :
  SFopp (binary_round_aux prec emax s m e l)
  = binary_round_aux prec emax (negb s) m e l.
Proof.
  unfold binary_round_aux.
  destruct (shr_fexp prec emax m e l) as [mrs e'].
  destruct (shr_fexp prec emax _ e' loc_Exact) as [mrs' e''].
  destruct (shr_m mrs'); try reflexivity.
  destruct (Z.leb e'' (emax - prec)); reflexivity.
Qed.

Lemma SFopp_binary_normalize (m e : Z) :
  m <> 0 ->
  SFopp (binary_normalize prec emax m e false)
  = binary_normalize prec emax (- m) e false.
Proof.
  destruct m as [|p|p]; [intros H; contradiction H; reflexivity | |];
    intros _; cbn [Z.opp binary_normalize]; unfold binary_round;
    destruct (shl_align p e _) as [mz ez]; apply SFopp_binary_round_aux.
Qed.

(** [a - b] is the opposite of [b - a], unless both are [+0]. *)
Lemma SFsub_opp (a b : spec_float) :
  SF64sub a b = SFopp (SF64sub b a)
  \/ (SF64sub a b = S754_zero false /\ SF64sub b a = S754_zero false).
Proof.
  destruct a as [sa | sa | | sa ma ea], b as [sb | sb | | sb mb eb];
    try (left; reflexivity);
    try (destruct sa, sb; (left; reflexivity) || (right; split; reflexivity)).
  unfold SF64sub, SFsub. cbv zeta. rewrite (Z.min_comm eb ea).
  set (A := cond_Zopp sa (Z.pos (fst (shl_align ma ea (Z.min ea eb))))).
  set (B := cond_Zopp sb (Z.pos (fst (shl_align mb eb (Z.min ea eb))))).
  destruct (Z.eq_dec (A - B) 0) as [E | E].
  - right. replace (B - A) with 0 by lia. rewrite E. split; reflexivity.
  - left. rewrite SFopp_binary_normalize by lia.
    f_equal. lia.
Qed.

Lemma sub_opp_sym (x y : float) :
  (x - y = - (y - x) \/ (x - y = 0 /\ y - x = 0))%float.
Proof.
  destruct (SFsub_opp (Prim2SF x) (Prim2SF y)) as [H | [H1 H2]].
  - left. apply Prim2SF_inj. rewrite opp_spec, !sub_spec. exact H.
  - right. split; apply Prim2SF_inj; rewrite sub_spec; assumption.
Qed.

Lemma sub_diag (a : float) :
  (a - a = if is_finite a then 0 else nan)%float.
Proof.
  unfold is_finite. rewrite is_nan_spec, is_infinity_spec.
  apply Prim2SF_inj. rewrite sub_spec, SFsub_diag.
  destruct (Prim2SF a); reflexivity.
Qed.

Lemma nan_not_zero : nan <> 0%float.
Proof.
  intros H. apply (f_equal PrimFloat.is_nan) in H. discriminate H.
Qed.

(** ** Values whose sign bit is clear *)

Lemma sign_clear_binary_round_aux (m e : Z) (l : location) :
  sign_clear (binary_round_aux prec emax false m e l) = true.
Proof.
  unfold binary_round_aux.
  destruct (shr_fexp prec emax m e l) as [mrs e'].
  destruct (shr_fexp prec emax _ e' loc_Exact) as [mrs' e''].
  destruct (shr_m mrs'); try reflexivity.
  destruct (Z.leb e'' (emax - prec)); reflexivity.
Qed.

Lemma sign_clear_square (a : spec_float) : sign_clear (SF64mul a a) = true.
Proof.
  destruct a as [s | s | | s m e]; cbn [SF64mul SFmul sign_clear];
    unfold SF64mul, SFmul; try rewrite xorb_nilpotent; try reflexivity.
  apply sign_clear_binary_round_aux.
Qed.

Lemma sign_clear_add (a b : spec_float) :
  sign_clear a = true -> sign_clear b = true ->
  sign_clear (SF64add a b) = true.
Proof.
  destruct a as [sa | sa | | sa ma ea], b as [sb | sb | | sb mb eb];
    cbn [sign_clear]; intros Ha Hb;
    try (apply negb_true_iff in Ha; subst sa);
    try (apply negb_true_iff in Hb; subst sb);
    try reflexivity.
  unfold SF64add, SFadd. cbv zeta. cbn [cond_Zopp Z.add binary_normalize].
  unfold binary_round.
  destruct (shl_align _ _ _) as [mz ez].
  apply sign_clear_binary_round_aux.
Qed.

Lemma sign_clear_sqrt (a : spec_float) :
  sign_clear a = true -> sign_clear (SF64sqrt a) = true.
Proof.
  destruct a as [s | s | | s m e]; cbn [sign_clear]; intros Ha;
    try (apply negb_true_iff in Ha; subst s); try reflexivity.
  unfold SF64sqrt, SFsqrt.
  destruct (SFsqrt_core_binary prec emax (Z.pos m) e) as [[mz ez] lz].
  apply sign_clear_binary_round_aux.
Qed.

Lemma sign_clear_ltb (a : spec_float) :
  sign_clear a = true -> SFltb a (S754_zero false) = false.
Proof.
  destruct a as [s | s | | s m e]; cbn [sign_clear]; intros Ha;
    try (apply negb_true_iff in Ha; subst s); reflexivity.
Qed.

Lemma sign_clear_leb (a : spec_float) :
  sign_clear a = true -> SFleb (S754_zero false) a = negb (spec_nan a).
Proof.
  destruct a as [s | s | | s m e]; cbn [sign_clear]; intros Ha;
    try (apply negb_true_iff in Ha; subst s); reflexivity.
Qed.

(** ** Rounding does not make a zero of a positive number *)

Lemma shr_m_shr_1 (mrs : shr_record) :
  0 <= shr_m mrs -> shr_m (shr_1 mrs) = shr_m mrs / 2.
Proof.
  destruct mrs as [m r s]. cbn [shr_m shr_1].
  destruct m as [|[p|p|]|p]; intros H; try lia; cbn [shr_m].
  - reflexivity.
  - rewrite Pos2Z.inj_xI.
    apply Z.div_unique with (r := 1); lia.
  - rewrite (Pos2Z.inj_xO p).
    apply Z.div_unique with (r := 0); lia.
  - reflexivity.
Qed.

Lemma shr_m_iter_pos (n : positive) (mrs : shr_record) :
  0 <= shr_m mrs ->
  shr_m (iter_pos shr_1 n mrs) = shr_m mrs / 2 ^ Z.pos n.
Proof.
  revert mrs.
  induction n as [n IH | n IH |]; intros mrs H; cbn [iter_pos].
  - assert (H1 : 0 <= shr_m (shr_1 mrs))
      by (rewrite shr_m_shr_1 by assumption; apply Z.div_pos; lia).
    assert (H2 : 0 <= shr_m (iter_pos shr_1 n (shr_1 mrs)))
      by (rewrite IH by assumption; apply Z.div_pos; lia).
    rewrite IH, IH, shr_m_shr_1 by assumption.
    rewrite !Z.div_div by lia. f_equal.
    rewrite Pos2Z.inj_xI, Z.pow_add_r, Z.pow_mul_r by lia.
    change (2 ^ 2) with 4. change (2 ^ 1) with 2.
    replace (4 ^ Z.pos n) with (2 ^ Z.pos n * 2 ^ Z.pos n)
      by (rewrite <- Z.pow_mul_l; reflexivity).
    lia.
  - assert (H2 : 0 <= shr_m (iter_pos shr_1 n mrs))
      by (rewrite IH by assumption; apply Z.div_pos; lia).
    rewrite IH, IH by assumption.
    rewrite Z.div_div by lia. f_equal.
    rewrite (Pos2Z.inj_xO n), Z.pow_mul_r by lia.
    change (2 ^ 2) with 4.
    rewrite <- Z.pow_mul_l. reflexivity.
  - rewrite shr_m_shr_1 by assumption. reflexivity.
Qed.

Lemma shr_m_shr_record_of_loc (m : Z) (l : location) :
  shr_m (shr_record_of_loc m l) = m.
Proof. destruct l as [|[| |]]; reflexivity. Qed.

(** A positive mantissa, at an exponent that is not below the least one,
    stays positive through the shift of the rounding. *)
Lemma shr_fexp_positive (m e : Z) (l : location) :
  0 < m -> -1074 <= e ->
  0 < shr_m (fst (shr_fexp prec emax m e l))
  /\ -1074 <= snd (shr_fexp prec emax m e l).
Proof.
  intros Hm He. unfold shr_fexp, shr, SpecFloat.fexp, SpecFloat.emin.
  change prec with 53. change emax with 1024.
  destruct m as [|p|p]; try lia. cbn [Zdigits2].
  pose proof (digits2_pos_spec p) as [Hlo Hhi].
  set (d := Z.pos (digits2_pos p)) in *.
  destruct (Z.max (d + e - 53) (3 - 1024 - 53) - e) as [|n|n] eqn:En;
    cbn [fst snd]; rewrite ?shr_m_shr_record_of_loc; try (split; lia).
  rewrite shr_m_iter_pos
    by (rewrite shr_m_shr_record_of_loc; lia).
  rewrite shr_m_shr_record_of_loc.
  assert (Hn : Z.pos n = d - 53) by lia.
  split; [|lia].
  apply Z.lt_le_trans with (2 ^ 52); [reflexivity|].
  apply Z.div_le_lower_bound; [apply Z.pow_pos_nonneg; lia|].
  rewrite <- Z.pow_add_r by lia.
  replace (Z.pos n + 52) with (d - 1) by lia. exact Hlo.
Qed.

Lemma round_nearest_even_positive (m : Z) (l : location) :
  0 < m -> 0 < round_nearest_even m l.
Proof.
  intros H. destruct l as [|[| |]]; cbn [round_nearest_even]; try lia.
  destruct (Z.even m); lia.
Qed.

(** The rounding of a positive number is neither a zero nor NaN. *)
Lemma binary_round_aux_positive (s : bool) (m e : Z) (l : location) :
  0 < m -> -1074 <= e ->
  spec_zero (binary_round_aux prec emax s m e l) = false
  /\ spec_nan (binary_round_aux prec emax s m e l) = false.
Proof.
  intros Hm He. unfold binary_round_aux.
  pose proof (shr_fexp_positive m e l Hm He) as [H1 H2].
  destruct (shr_fexp prec emax m e l) as [mrs e']. cbn [fst snd] in H1, H2.
  pose proof (round_nearest_even_positive (shr_m mrs)
                (loc_of_shr_record mrs) H1) as Hr.
  pose proof (shr_fexp_positive _ e' loc_Exact Hr H2) as [H3 H4].
  destruct (shr_fexp prec emax _ e' loc_Exact) as [mrs' e''].
  cbn [fst snd] in H3, H4.
  destruct (shr_m mrs'); try lia.
  destruct (Z.leb e'' (emax - prec)); split; reflexivity.
Qed.

Lemma shl_align_exponent (m : positive) (e e' : Z) :
  -1074 <= e -> -1074 <= e' -> -1074 <= snd (shl_align m e e').
Proof.
  intros He He'. unfold shl_align.
  destruct (e' - e); cbn [snd]; lia.
Qed.

Lemma binary_round_nonzero (s : bool) (m : positive) (e : Z) :
  -1074 <= e -> spec_zero (binary_round prec emax s m e) = false.
Proof.
  intros He. unfold binary_round.
  pose proof (shl_align_exponent m e
                (SpecFloat.fexp prec emax (Z.pos (digits2_pos m) + e)) He)
    as Hs.
  destruct (shl_align m e _) as [mz ez]. cbn [snd] in Hs.
  apply binary_round_aux_positive; [lia|].
  apply Hs. unfold SpecFloat.fexp, SpecFloat.emin.
  change prec with 53. change emax with 1024. lia.
Qed.

(** A sum of two values whose sign bit is clear is a zero only when both
    are. *)
Lemma SFadd_zero (a b : spec_float) :
  valid_binary a = true -> valid_binary b = true ->
  sign_clear a = true -> sign_clear b = true ->
  spec_zero (SF64add a b) = spec_zero a && spec_zero b.
Proof.
  intros Va Vb.
  destruct a as [sa | sa | | sa ma ea], b as [sb | sb | | sb mb eb];
    cbn [sign_clear]; intros Ha Hb;
    try (apply negb_true_iff in Ha; subst sa);
    try (apply negb_true_iff in Hb; subst sb);
    try reflexivity.
  apply valid_finite in Va, Vb.
  unfold SF64add, SFadd. cbv zeta. cbn [cond_Zopp Z.add binary_normalize].
  cbn [spec_zero andb].
  apply binary_round_nonzero. lia.
Qed.

Lemma SFmul_zero_square (a : spec_float) :
  spec_zero a = true -> spec_zero (SF64mul a a) = true.
Proof. destruct a; try discriminate. reflexivity. Qed.

(** ** Square roots *)

Lemma SFsqrt_core_binary_positive (m : positive) (e : Z) :
  -1074 <= e ->
  0 < fst (fst (SFsqrt_core_binary prec emax (Z.pos m) e))
  /\ -1074 <= snd (fst (SFsqrt_core_binary prec emax (Z.pos m) e)).
Proof.
  intros He. unfold SFsqrt_core_binary. cbv zeta.
  set (e' := Z.min _ _).
  assert (He' : -1074 <= e' /\ 2 * e' <= e).
  { unfold e', SpecFloat.fexp, SpecFloat.emin.
    change prec with 53. change emax with 1024.
    rewrite !Z.div2_div. split.
    - apply Z.min_glb; [lia|]. apply Z.div_le_lower_bound; lia.
    - pose proof (Z.le_min_r
                    (Z.max ((Zdigits2 (Z.pos m) + e + 1) / 2 - 53)
                       (3 - 1024 - 53)) (e / 2)) as Hle.
      pose proof (Z.mul_div_le e 2 eq_refl). lia. }
  set (m' := match e - 2 * e' with
             | 0 => Z.pos m
             | Z.pos _ => Z.shiftl (Z.pos m) (e - 2 * e')
             | Z.neg _ => 0
             end).
  assert (Hm' : 0 < m').
  { unfold m'. destruct (e - 2 * e') as [|p|p] eqn:Es; try lia.
    rewrite Z.shiftl_mul_pow2 by lia.
    apply Z.mul_pos_pos; [lia|]. apply Z.pow_pos_nonneg; lia. }
  pose proof (Z.sqrtrem_spec m' (Z.lt_le_incl _ _ Hm')) as Hs.
  destruct (Z.sqrtrem m') as [q r]. cbn [fst snd].
  split; [nia | lia].
Qed.

(** The square root of a value whose sign bit is clear is a zero, or NaN,
    exactly when the value is. *)
Lemma SFsqrt_class (a : spec_float) :
  valid_binary a = true -> sign_clear a = true ->
  spec_zero (SF64sqrt a) = spec_zero a
  /\ spec_nan (SF64sqrt a) = spec_nan a.
Proof.
  intros Va.
  destruct a as [s | s | | s m e]; cbn [sign_clear]; intros Ha;
    try (apply negb_true_iff in Ha; subst s); try (split; reflexivity).
  apply valid_finite in Va.
  unfold SF64sqrt, SFsqrt. cbn [spec_zero spec_nan].
  pose proof (SFsqrt_core_binary_positive m e ltac:(lia)) as [Hq He].
  destruct (SFsqrt_core_binary prec emax (Z.pos m) e) as [[mz ez] lz].
  cbn [fst snd] in Hq, He.
  apply binary_round_aux_positive; assumption.
Qed.

(** ** Products and quotients that underflow or overflow *)

Lemma SFdiv_degenerate (p g a : spec_float) :
  spec_degenerate p = true -> spec_finite_nonzero a = true ->
  SFeqb (SF64div p g) a = false.
Proof.
  destruct p as [sp | sp | |]; try discriminate; intros _;
    destruct a as [| | | sa ma ea]; try discriminate; intros _;
    destruct g as [sg | sg | | sg mg eg]; cbn [SF64div SFdiv];
    unfold SFeqb; cbn [SFcompare];
    try reflexivity;
    try (destruct (xorb sp sg), sa; reflexivity); destruct sa; reflexivity.
Qed.

Lemma SFmul_degenerate (p g a : spec_float) :
  spec_degenerate p = true -> spec_finite_nonzero a = true ->
  SFeqb (SF64mul p g) a = false.
Proof.
  destruct p as [sp | sp | |]; try discriminate; intros _;
    destruct a as [| | | sa ma ea]; try discriminate; intros _;
    destruct g as [sg | sg | | sg mg eg]; cbn [SF64mul SFmul];
    unfold SFeqb; cbn [SFcompare];
    try reflexivity;
    try (destruct (xorb sp sg), sa; reflexivity); destruct sa; reflexivity.
Qed.

(** ** The same facts on the doubles of the kernel *)

Section Doubles.
Local Open Scope float_scope.

Lemma eqb_zero_spec (f : float) : (f =? 0) = spec_zero (Prim2SF f).
Proof.
  rewrite eqb_spec. change (Prim2SF 0) with (S754_zero false).
  destruct (Prim2SF f) as [s | s | | s m e]; try reflexivity;
    destruct s; reflexivity.
Qed.

Lemma square_sign_clear (a : float) : sign_clear (Prim2SF (a * a)) = true.
Proof. rewrite mul_spec. apply sign_clear_square. Qed.

Lemma add_sign_clear (a b : float) :
  sign_clear (Prim2SF a) = true -> sign_clear (Prim2SF b) = true ->
  sign_clear (Prim2SF (a + b)) = true.
Proof. intros Ha Hb. rewrite add_spec. apply sign_clear_add; assumption. Qed.

Lemma abs_sign_clear (a : float) : sign_clear (Prim2SF (abs a)) = true.
Proof. rewrite abs_spec. destruct (Prim2SF a); reflexivity. Qed.

Lemma sqrt_sign_clear (a : float) :
  sign_clear (Prim2SF a) = true -> sign_clear (Prim2SF (sqrt a)) = true.
Proof. intros H. rewrite sqrt_spec. apply sign_clear_sqrt. assumption. Qed.

Lemma add_zero (a b : float) :
  sign_clear (Prim2SF a) = true -> sign_clear (Prim2SF b) = true ->
  (a + b =? 0) = (a =? 0) && (b =? 0).
Proof.
  intros Ha Hb. rewrite !eqb_zero_spec, add_spec.
  apply SFadd_zero; try assumption; apply Prim2SF_valid.
Qed.

Lemma square_zero (a : float) : (a =? 0) = true -> (a * a =? 0) = true.
Proof.
  rewrite !eqb_zero_spec, mul_spec. apply SFmul_zero_square.
Qed.

(** A value whose sign bit is clear is never below zero, and is at least
    zero unless it is NaN. *)
Lemma sign_clear_not_negative (a : float) :
  sign_clear (Prim2SF a) = true ->
  (a <? 0) = false /\ (0 <=? a) = negb (is_nan a).
Proof.
  intros H. rewrite ltb_spec, leb_spec, is_nan_spec.
  change (Prim2SF 0) with (S754_zero false).
  split; [apply sign_clear_ltb | apply sign_clear_leb]; assumption.
Qed.

Lemma sqrt_class (a : float) :
  sign_clear (Prim2SF a) = true ->
  (sqrt a =? 0) = (a =? 0) /\ is_nan (sqrt a) = is_nan a.
Proof.
  intros H.
  destruct (SFsqrt_class (Prim2SF a) (Prim2SF_valid a) H) as [Hz Hn].
  rewrite !eqb_zero_spec, !is_nan_spec, sqrt_spec. split; assumption.
Qed.

Lemma abs_square (a : float) : abs a * abs a = a * a.
Proof.
  apply mul_abs_eq. apply Prim2SF_inj. rewrite !abs_spec.
  destruct (Prim2SF a); reflexivity.
Qed.

Lemma degenerate_spec (p : float) :
  is_zero p || is_infinity p = spec_degenerate (Prim2SF p).
Proof.
  rewrite is_zero_spec, is_infinity_spec. destruct (Prim2SF p); reflexivity.
Qed.

Lemma finite_nonzero_spec (a : float) :
  is_finite a = true -> (a =? 0) = false ->
  spec_finite_nonzero (Prim2SF a) = true.
Proof.
  unfold is_finite. rewrite eqb_zero_spec, is_nan_spec, is_infinity_spec.
  destruct (Prim2SF a); cbn; congruence.
Qed.

(** A quotient, or a product, whose first operand is a zero or an
    infinity is not equal to any finite double other than zero. *)
Lemma div_degenerate (p g a : float) :
  is_zero p || is_infinity p = true ->
  is_finite a = true -> (a =? 0) = false ->
  (p / g =? a) = false.
Proof.
  intros Hp Hf Hz. rewrite degenerate_spec in Hp.
  rewrite eqb_spec, div_spec.
  apply SFdiv_degenerate; [assumption|].
  apply finite_nonzero_spec; assumption.
Qed.

Lemma mul_degenerate (p g a : float) :
  is_zero p || is_infinity p = true ->
  is_finite a = true -> (a =? 0) = false ->
  (p * g =? a) = false.
Proof.
  intros Hp Hf Hz. rewrite degenerate_spec in Hp.
  rewrite eqb_spec, mul_spec.
  apply SFmul_degenerate; [assumption|].
  apply finite_nonzero_spec; assumption.
Qed.

End Doubles.

End FloatTheory.

(* ===================================================================== *)
(** * Properties of [ULPDistance] *)
(* ===================================================================== *)

Module NumericsTheory.

Import Numerics.
Local Open Scope Z_scope.

(** ** The bit fields of a double *)

Lemma bits_bounds (x : double) : 0 <= bits x < 2 ^ 64.
Proof.
  destruct x as [b Hb]; cbn [bits]. unfold in_range64 in Hb.
  apply andb_prop in Hb as [H1 H2].
  apply Z.leb_le in H1. apply Z.ltb_lt in H2. split; assumption.
Qed.

Lemma double_ext (x y : double) : bits x = bits y -> x = y.
Proof.
  destruct x as [a Ha], y as [b Hb]; cbn [bits]; intros ->.
  f_equal. apply UIP_dec, bool_dec.
Qed.

Lemma wrap64_small (z : Z) : - 2 ^ 63 <= z < 2 ^ 63 -> wrap64 z = z.
Proof.
  intros H. unfold wrap64. rewrite Z.mod_small; lia.
Qed.

Lemma sign_bit_spec (x : double) : sign_bit x = (2 ^ 63 <=? bits x).
Proof.
  pose proof (bits_bounds x) as Hb. unfold sign_bit.
  rewrite Z.testbit_eqb by lia.
  destruct (Z.leb_spec (2 ^ 63) (bits x)) as [H | H].
  - replace (bits x / 2 ^ 63) with 1; [reflexivity|].
    apply Z.div_unique with (r := bits x - 2 ^ 63); lia.
  - rewrite Z.div_small by lia. reflexivity.
Qed.

Lemma bit_fields (x : double) :
  bits x = (if sign_bit x then 2 ^ 63 else 0)
           + 2 ^ 52 * biased_exponent x + fraction x
  /\ 0 <= biased_exponent x < 2 ^ 11 /\ 0 <= fraction x < 2 ^ 52.
Proof.
  pose proof (bits_bounds x) as Hb.
  rewrite sign_bit_spec. unfold biased_exponent, fraction.
  rewrite !Z.land_ones, Z.shiftr_div_pow2 by lia.
  destruct (Z.leb_spec (2 ^ 63) (bits x)); pow2;
    Z.div_mod_to_equations; lia.
Qed.

Lemma ULPDistance_eq (x y : double) :
  ULPDistance x y =
  if double_eq x y then 0
  else if negb (double_eq (copysign one x) (copysign one y)) then
    add64
      (ULPDistance (if double_eq (copysign one x) one then x else y) pos_zero)
      (ULPDistance (if double_eq (copysign one x) one then y else x) neg_zero)
  else abs64 (sub64 (long_value x) (long_value y)).
Proof.
  rewrite ULPDistance_equation_1.
  destruct (inspect (double_eq x y)) as [[|] E];
    cbn [ULPDistance_unfold_clause_1]; symmetry;
    (etransitivity; [rewrite E; reflexivity|]); symmetry.
  - reflexivity.
  - destruct (inspect (negb (double_eq (copysign one x) (copysign one y))))
      as [[|] E']; cbn [ULPDistance_unfold_clause_1_clause_2]; symmetry;
      (etransitivity; [rewrite E'; reflexivity|]); reflexivity.
Qed.

(** The same equation with the sign tests read off the sign bits. *)
Lemma ULPDistance_cases (x y : double) :
  ULPDistance x y =
  if double_eq x y then 0
  else if Bool.eqb (sign_bit x) (sign_bit y) then
    abs64 (sub64 (long_value x) (long_value y))
  else if sign_bit x then
    add64 (ULPDistance y pos_zero) (ULPDistance x neg_zero)
  else add64 (ULPDistance x pos_zero) (ULPDistance y neg_zero).
Proof.
  rewrite ULPDistance_eq at 1.
  rewrite double_eq_signs, double_eq_sign_one.
  destruct (double_eq x y); [reflexivity|].
  destruct (sign_bit x), (sign_bit y); reflexivity.
Qed.

Lemma double_eq_sym (x y : double) : double_eq x y = double_eq y x.
Proof.
  unfold double_eq.
  rewrite (orb_comm (is_nan x)), (andb_comm (is_zero x)), (Z.eqb_sym (bits x)).
  reflexivity.
Qed.

Lemma abs64_sub64_sym (a b : Z) : abs64 (sub64 a b) = abs64 (sub64 b a).
Proof.
  unfold abs64, sub64, wrap64. pow2.
  do 3 f_equal. Z.div_mod_to_equations. lia.
Qed.

Lemma ULPDistance_sym (x y : double) : ULPDistance x y = ULPDistance y x.
Proof.
  rewrite (ULPDistance_cases x y), (ULPDistance_cases y x).
  rewrite (double_eq_sym y x), (abs64_sub64_sym (long_value y)).
  destruct (double_eq x y); [reflexivity|].
  destruct (sign_bit x), (sign_bit y); reflexivity.
Qed.

Lemma long_value_spec (x : double) :
  long_value x = if sign_bit x then bits x - 2 ^ 64 else bits x.
Proof.
  pose proof (bits_bounds x) as Hb. unfold long_value, wrap64.
  rewrite sign_bit_spec. pow2.
  destruct (Z.leb_spec 9223372036854775808 (bits x));
    Z.div_mod_to_equations; lia.
Qed.

Lemma is_zero_bits (x : double) :
  is_zero x = true <-> bits x = if sign_bit x then 2 ^ 63 else 0.
Proof.
  pose proof (bit_fields x) as (Hx & He & Hf). unfold is_zero.
  rewrite andb_true_iff, !Z.eqb_eq.
  destruct (sign_bit x); lia.
Qed.

Lemma double_eq_true (x y : double) :
  double_eq x y = true ->
  Bool.eqb (sign_bit x) (sign_bit y) = true -> bits x = bits y.
Proof.
  unfold double_eq. destruct (is_nan x || is_nan y); [discriminate|].
  destruct (is_zero x && is_zero y) eqn:Hz.
  - apply andb_prop in Hz as [Hzx Hzy].
    apply is_zero_bits in Hzx, Hzy. intros _ Hs. apply eqb_prop in Hs.
    rewrite Hzx, Hzy, Hs. reflexivity.
  - intros H _. apply Z.eqb_eq. assumption.
Qed.

Lemma double_eq_refl (x : double) : double_eq x x = negb (is_nan x).
Proof.
  unfold double_eq. rewrite orb_diag, andb_diag, Z.eqb_refl.
  destruct (is_nan x), (is_zero x); reflexivity.
Qed.

Lemma abs64_sub64_same_sign (x y : double) :
  Bool.eqb (sign_bit x) (sign_bit y) = true ->
  abs64 (sub64 (long_value x) (long_value y)) = Z.abs (bits x - bits y).
Proof.
  intros Hs. apply eqb_prop in Hs.
  pose proof (bits_bounds x) as Hx. pose proof (bits_bounds y) as Hy.
  rewrite !long_value_spec, <- Hs.
  pose proof (sign_bit_spec x) as Sx. pose proof (sign_bit_spec y) as Sy.
  rewrite <- Hs in Sy. unfold abs64, sub64.
  destruct (sign_bit x); symmetry in Sx, Sy;
    [apply Z.leb_le in Sx, Sy | apply Z.leb_gt in Sx, Sy];
    (rewrite (wrap64_small (_ - _)); [rewrite wrap64_small|]);
    pow2; lia.
Qed.

(** Distance to the zero of the same sign: the magnitude bits. *)
Lemma ULPDistance_pos_zero (x : double) :
  sign_bit x = false -> ULPDistance x pos_zero = bits x.
Proof.
  intros Hs. rewrite ULPDistance_cases, sign_bit_pos_zero, Hs.
  cbn [Bool.eqb].
  pose proof (bits_bounds x) as Hx.
  destruct (double_eq x pos_zero) eqn:E.
  - apply double_eq_true in E; [|rewrite Hs; reflexivity].
    rewrite E. reflexivity.
  - rewrite abs64_sub64_same_sign by (rewrite Hs; reflexivity).
    change (bits pos_zero) with 0. lia.
Qed.

Lemma ULPDistance_neg_zero (x : double) :
  sign_bit x = true -> ULPDistance x neg_zero = bits x - 2 ^ 63.
Proof.
  intros Hs. rewrite ULPDistance_cases, sign_bit_neg_zero, Hs.
  cbn [Bool.eqb].
  pose proof (bits_bounds x) as Hx.
  pose proof (sign_bit_spec x) as Sx. rewrite Hs in Sx.
  symmetry in Sx. apply Z.leb_le in Sx.
  destruct (double_eq x neg_zero) eqn:E.
  - apply double_eq_true in E; [|rewrite Hs; reflexivity].
    rewrite E. reflexivity.
  - rewrite abs64_sub64_same_sign by (rewrite Hs; reflexivity).
    change (bits neg_zero) with (2 ^ 63). lia.
Qed.

(** Operands of different sign: the sum, in [int64_t], of the two
    magnitudes. *)
Lemma ULPDistance_opposite (x y : double) :
  sign_bit x = false -> sign_bit y = true ->
  ULPDistance x y = add64 (ULPDistance x pos_zero) (ULPDistance y neg_zero).
Proof.
  intros Hx Hy. rewrite (ULPDistance_cases x y), Hx, Hy. cbn [Bool.eqb].
  destruct (double_eq x y) eqn:E; [|reflexivity].
  rewrite ULPDistance_pos_zero, ULPDistance_neg_zero by assumption.
  unfold double_eq in E.
  destruct (is_nan x || is_nan y); [discriminate|].
  pose proof (sign_bit_spec x) as Sx. pose proof (sign_bit_spec y) as Sy.
  rewrite Hx in Sx. rewrite Hy in Sy. symmetry in Sx, Sy.
  apply Z.leb_gt in Sx. apply Z.leb_le in Sy.
  destruct (is_zero x && is_zero y) eqn:Hz.
  - apply andb_prop in Hz as [Hzx Hzy].
    apply is_zero_bits in Hzx, Hzy. rewrite Hx in Hzx. rewrite Hy in Hzy.
    rewrite Hzx, Hzy. reflexivity.
  - apply Z.eqb_eq in E. lia.
Qed.

Lemma add64_magnitudes_zero (a b : Z) :
  0 <= a < 2 ^ 63 -> 0 <= b < 2 ^ 63 -> add64 a b = 0 -> a = 0 /\ b = 0.
Proof.
  unfold add64, wrap64. pow2.
  intros Ha Hb. Z.div_mod_to_equations. lia.
Qed.

Lemma ULPDistance_zero_iff (x y : double) :
  ULPDistance x y = 0 <-> double_eq x y = true \/ x = y.
Proof.
  pose proof (bits_bounds x) as Bx. pose proof (bits_bounds y) as By.
  pose proof (sign_bit_spec x) as Sx. pose proof (sign_bit_spec y) as Sy.
  split.
  - destruct (double_eq x y) eqn:E; [left; reflexivity|]. intros H. right.
    destruct (sign_bit x) eqn:Hx, (sign_bit y) eqn:Hy;
      symmetry in Sx, Sy.
    + rewrite ULPDistance_cases, E, Hx, Hy in H. cbn [Bool.eqb] in H.
      rewrite abs64_sub64_same_sign in H by (rewrite Hx, Hy; reflexivity).
      apply double_ext. lia.
    + exfalso.
      rewrite ULPDistance_sym, ULPDistance_opposite in H by assumption.
      rewrite ULPDistance_pos_zero, ULPDistance_neg_zero in H by assumption.
      apply Z.leb_le in Sx. apply Z.leb_gt in Sy.
      apply add64_magnitudes_zero in H; [|lia|lia].
      assert (x = neg_zero) as ->
        by (apply double_ext; change (bits neg_zero) with (2 ^ 63); lia).
      assert (y = pos_zero) as -> by (apply double_ext, (proj1 H)).
      discriminate E.
    + exfalso. rewrite ULPDistance_opposite in H by assumption.
      rewrite ULPDistance_pos_zero, ULPDistance_neg_zero in H by assumption.
      apply Z.leb_gt in Sx. apply Z.leb_le in Sy.
      apply add64_magnitudes_zero in H; [|lia|lia].
      assert (x = pos_zero) as -> by (apply double_ext, (proj1 H)).
      assert (y = neg_zero) as ->
        by (apply double_ext; change (bits neg_zero) with (2 ^ 63); lia).
      discriminate E.
    + rewrite ULPDistance_cases, E, Hx, Hy in H. cbn [Bool.eqb] in H.
      rewrite abs64_sub64_same_sign in H by (rewrite Hx, Hy; reflexivity).
      apply double_ext. lia.
  - intros [E | ->].
    + rewrite ULPDistance_cases, E. reflexivity.
    + rewrite ULPDistance_cases. destruct (double_eq y y); [reflexivity|].
      rewrite eqb_reflx, abs64_sub64_same_sign by apply eqb_reflx.
      rewrite Z.sub_diag. reflexivity.
Qed.

(** ** The laws of the distance *)

(** C10, as the code has it.  [ULPDistance] is symmetric; it is 0 exactly when
    its operands compare equal as doubles or are the same bit pattern (a NaN
    is at distance 0 from itself without being equal to itself), so that on
    operands that are not NaN it is 0 exactly when they are equal, as for
    [+0.0] and [-0.0]; and for operands of opposite sign it is the sum, in
    [int64_t], of the distance from the positive one to [+0.0] and of the
    distance from the negative one to [-0.0]. *)
Theorem ULPDistance_laws (x y : double) :
  ULPDistance x y = ULPDistance y x
  /\ (ULPDistance x y = 0 <-> double_eq x y = true \/ x = y)
  /\ (is_nan x = false ->
      (ULPDistance x y = 0 <-> double_eq x y = true))
  /\ ULPDistance pos_zero neg_zero = 0
  /\ (sign_bit x = false -> sign_bit y = true ->
      ULPDistance x y
        = add64 (ULPDistance x pos_zero) (ULPDistance y neg_zero)
      /\ ULPDistance y x
        = add64 (ULPDistance x pos_zero) (ULPDistance y neg_zero)).
Proof.
  split; [apply ULPDistance_sym|].
  split; [apply ULPDistance_zero_iff|].
  split.
  - intros Hnan. rewrite ULPDistance_zero_iff. split; [|left; assumption].
    intros [E | <-]; [assumption|].
    rewrite double_eq_refl, Hnan. reflexivity.
  - split; [reflexivity|].
    intros Hx Hy. split.
    + apply ULPDistance_opposite; assumption.
    + rewrite ULPDistance_sym. apply ULPDistance_opposite; assumption.
Qed.

(** The laws at [1] and [-1]: two doubles of opposite sign. *)
Lemma ULPDistance_laws_witness :
  sign_bit one = false /\ sign_bit minus_one = true
  /\ ULPDistance one minus_one
      = add64 (ULPDistance one pos_zero) (ULPDistance minus_one neg_zero).
Proof.
  split; [reflexivity|]. split; [reflexivity|].
  exact (proj1
           (proj2 (proj2 (proj2 (proj2 (ULPDistance_laws one minus_one))))
              eq_refl eq_refl)).
Defined.

(** C10 as stated fails on a NaN: a quiet NaN is at distance 0 from
    itself, and does not compare equal to itself. *)
Lemma ULPDistance_nan_counterexample :
  ~ (ULPDistance quiet_nan quiet_nan = 0
     <-> double_eq quiet_nan quiet_nan = true).
Proof.
  intros [H _]. specialize (H eq_refl). discriminate H.
Qed.

(** The sum of the two magnitudes is an [int64_t] sum: between the largest
    finite double and its opposite it wraps around. *)
Example ULPDistance_dbl_max :
  ULPDistance dbl_max minus_dbl_max = -9007199254740994.
Proof. vm_compute. reflexivity. Qed.

End NumericsTheory.

(* ===================================================================== *)
(** * Properties of [MassiveBody] *)
(* ===================================================================== *)

Module PhysicsTheory.

Import Physics Fixtures.
Local Open Scope float_scope.

Section Constructors.
Variable G : Quantity.

Lemma from_mass_checked (m : Mass) :
  MassiveBody_from_mass G m
  = if m =? 0 then Fatal "Massive body cannot have zero mass"%string
    else Ok (Build_MassiveBody (m * G) m).
Proof.
  unfold MassiveBody_from_mass, CHECK_NE. destruct (m =? 0); reflexivity.
Qed.

Lemma from_gravitational_parameter_checked (mu : GravitationalParameter) :
  MassiveBody_from_gravitational_parameter G mu
  = if mu =? 0
    then Fatal "Massive body cannot have zero gravitational parameter"%string
    else Ok (Build_MassiveBody mu (mu / G)).
Proof.
  unfold MassiveBody_from_gravitational_parameter, CHECK_NE.
  destruct (mu =? 0); reflexivity.
Qed.

(** C2.  Constructing a [MassiveBody] from a quantity that compares equal
    to zero ends in the fatal failure of the constructor's check, with its
    message and with no body; from any other mass or gravitational
    parameter it yields a body. *)
Theorem MassiveBody_zero_is_fatal (q : Quantity) :
  ((q =? 0) = true <->
     MassiveBody_from_mass G q
     = Fatal "Massive body cannot have zero mass"%string)
  /\ ((q =? 0) = true <->
     MassiveBody_from_gravitational_parameter G q
     = Fatal "Massive body cannot have zero gravitational parameter"%string)
  /\ ((q =? 0) = false <-> exists body, MassiveBody_from_mass G q = Ok body)
  /\ ((q =? 0) = false <->
     exists body, MassiveBody_from_gravitational_parameter G q = Ok body).
Proof.
  rewrite from_mass_checked, from_gravitational_parameter_checked.
  destruct (q =? 0); repeat split;
    try reflexivity; try discriminate; try (eexists; reflexivity);
    intros [body H]; discriminate H.
Qed.


End Constructors.

(** C2 at the two zeros of the doubles and at the mass of the Earth. *)
Lemma MassiveBody_zero_is_fatal_witness :
  MassiveBody_from_mass G_SI 0
  = Fatal "Massive body cannot have zero mass"%string
  /\ MassiveBody_from_gravitational_parameter G_SI (-0)
  = Fatal "Massive body cannot have zero gravitational parameter"%string
  /\ exists body, MassiveBody_from_mass G_SI earth_mass = Ok body.
Proof.
  split; [|split].
  - apply (proj1 (MassiveBody_zero_is_fatal G_SI 0)). reflexivity.
  - apply (proj1 (proj2 (MassiveBody_zero_is_fatal G_SI (-0)))). reflexivity.
  - apply (proj1 (proj2 (proj2 (MassiveBody_zero_is_fatal G_SI earth_mass)))).
    reflexivity.
Defined.



(** On the two bodies of the Earth-Moon fixture the mass derived from the
    gravitational parameter is the mass given, up to one unit in the last
    place: there the two representations agree to numerical precision, and
    not always bit for bit. *)
Example MassiveBody_representations_agree :
  Numerics.ULPDistance
    (Numerics.double_of_float ((earth_mass * G_SI) / G_SI))
    (Numerics.double_of_float earth_mass) = 0%Z
  /\ Numerics.ULPDistance
       (Numerics.double_of_float ((moon_mass * G_SI) / G_SI))
       (Numerics.double_of_float moon_mass) = 1%Z.
Proof. split; vm_compute; reflexivity. Qed.

(** C9.  A [MassiveBody] answers [false] to both capability queries,
    whatever mass or gravitational parameter it was constructed from. *)
Theorem MassiveBody_capabilities (body : MassiveBody) :
  is_massless body = false /\ is_oblate body = false.
Proof. split; reflexivity. Qed.

End PhysicsTheory.

(* ===================================================================== *)
(** * Laws of the Grassmann algebra *)
(* ===================================================================== *)

Module GeometryTheory.

Import Geometry Fixtures FloatClasses FloatTheory.
Local Open Scope float_scope.

(** ** Tuples of doubles *)

Lemma sub_equal_up_to_zero_sign (a b : float) :
  equal_up_to_zero_sign (a - b) (- (b - a)).
Proof.
  destruct (sub_opp_sym a b) as [H | [H1 H2]].
  - left. exact H.
  - right. rewrite H1, H2. split; reflexivity.
Qed.

Lemma equal_up_to_zero_sign_eqb (c c' : float) :
  equal_up_to_zero_sign c c' -> (c =? c') = negb (is_nan c).
Proof.
  intros [<- | [-> ->]]; [|reflexivity].
  unfold is_nan. rewrite negb_involutive. reflexivity.
Qed.

Lemma R3_equal_up_to_zero_sign_eqb (a b : R3Element float) :
  R3_equal_up_to_zero_sign a b -> R3_has_nan a = false -> R3_eqb a b = true.
Proof.
  intros (Hx & Hy & Hz). unfold R3_has_nan, R3_eqb. intros Hnan.
  apply orb_false_elim in Hnan as [Hnan Hnz].
  apply orb_false_elim in Hnan as [Hnx Hny].
  rewrite (equal_up_to_zero_sign_eqb _ _ Hx), Hnx.
  rewrite (equal_up_to_zero_sign_eqb _ _ Hy), Hny.
  rewrite (equal_up_to_zero_sign_eqb _ _ Hz), Hnz. reflexivity.
Qed.

(** [Cross] is antisymmetric up to the sign of a zero. *)
Lemma Cross_antisymmetric (a b : R3Element float) :
  R3_equal_up_to_zero_sign (Cross a b) (R3_opp (Cross b a)).
Proof.
  unfold R3_equal_up_to_zero_sign, Cross, R3_opp.
  cbn [x y z s_mul s_sub s_opp Scalar_double].
  rewrite (mul_comm (y b) (z a)), (mul_comm (z b) (y a)).
  rewrite (mul_comm (z b) (x a)), (mul_comm (x b) (z a)).
  rewrite (mul_comm (x b) (y a)), (mul_comm (y b) (x a)).
  repeat split; apply sub_equal_up_to_zero_sign.
Qed.

(** [Cross] of a tuple with itself: each coordinate is the difference of
    a product with itself, [+0.0] when the product is finite and NaN when
    it is not. *)
Lemma Cross_diag (a : R3Element float) :
  Cross a a
  = Build_R3Element
      (if is_finite (y a * z a) then 0 else nan)
      (if is_finite (z a * x a) then 0 else nan)
      (if is_finite (x a * y a) then 0 else nan).
Proof.
  unfold Cross. cbn [x y z s_mul s_sub Scalar_double].
  rewrite (mul_comm (z a) (y a)), (mul_comm (x a) (z a)),
    (mul_comm (y a) (x a)).
  rewrite !sub_diag. reflexivity.
Qed.

Lemma Cross_diag_zero (a : R3Element float) :
  Cross a a = R3_zero <->
  is_finite (y a * z a) && is_finite (z a * x a) && is_finite (x a * y a)
  = true.
Proof.
  rewrite Cross_diag. unfold R3_zero. cbn [s_zero Scalar_double].
  destruct (is_finite (y a * z a)), (is_finite (z a * x a)),
           (is_finite (x a * y a)); cbn [andb]; split;
    intros H; try reflexivity; try discriminate H;
    exfalso; injection H; intros; apply nan_not_zero; assumption.
Qed.

Lemma Dot_sym (a b : R3Element float) : Dot a b = Dot b a.
Proof.
  unfold Dot. cbn [s_add s_mul Scalar_double].
  rewrite (mul_comm (x a)), (mul_comm (y a)), (mul_comm (z a)).
  reflexivity.
Qed.

Lemma Dot_self_sign_clear (a : R3Element float) :
  sign_clear (Prim2SF (Dot a a)) = true.
Proof.
  unfold Dot. cbn [s_add s_mul Scalar_double].
  repeat apply add_sign_clear; apply square_sign_clear.
Qed.

(** The sum of three squares is a zero only when the three squares are:
    a sum of doubles of one sign does not cancel. *)
Lemma Dot_self_zero (a : R3Element float) :
  (Dot a a =? 0)
  = (x a * x a =? 0) && ((y a * y a =? 0) && ((z a * z a =? 0) && true)).
Proof.
  unfold Dot. cbn [s_add s_mul Scalar_double].
  rewrite add_zero, add_zero, andb_true_r, andb_assoc;
    try apply add_sign_clear; try apply square_sign_clear.
  reflexivity.
Qed.

(** The inner product of a tuple with itself and the norm of the tuple. *)
Lemma R3_inner_product_laws (a : R3Element float) :
  (Dot a a <? 0) = false
  /\ (0 <=? Dot a a) = negb (is_nan (Dot a a))
  /\ (Dot a a =? 0) = forallb (fun c => c * c =? 0) [x a; y a; z a]
  /\ (forallb (fun c => c =? 0) [x a; y a; z a] = true ->
      (Dot a a =? 0) = true)
  /\ (R3_Norm_double a <? 0) = false
  /\ (R3_Norm_double a =? 0) = (Dot a a =? 0)
  /\ is_nan (R3_Norm_double a) = is_nan (Dot a a).
Proof.
  unfold R3_Norm_double.
  pose proof (Dot_self_sign_clear a) as Hs.
  destruct (sign_clear_not_negative _ Hs) as [Hlt Hle].
  destruct (sqrt_class _ Hs) as [Hz Hn].
  split; [exact Hlt|]. split; [exact Hle|].
  split; [apply Dot_self_zero|].
  split; [|split; [|split; [exact Hz | exact Hn]]].
  - cbn [forallb]. rewrite Dot_self_zero, !andb_true_iff.
    intros (Hx & Hy & Hc & _).
    repeat split; apply square_zero; assumption.
  - apply sign_clear_not_negative, sqrt_sign_clear, Hs.
Qed.

(** ** The laws of the algebra, on doubles *)

Section DoubleLaws.
Context {Frame : Type}.




End DoubleLaws.

(** ** Where the laws of the exact algebra fail on doubles *)




(** ** The operands of the tests *)

(** [GrassmannTests::GrassmannAlgebra] wedges the vector [u] with itself:
    the result is the zero bivector, bit for bit. *)
Example Wedge_u_u_double :
  Wedge (Frame := World) (Build_Vector u_double) (Build_Vector u_double)
  = Bivector_zero.
Proof. vm_compute. reflexivity. Qed.

(** On the four operands of the test, the square of the norm is the inner
    product of the operand with itself up to one unit in the last
    place. *)
Example Norm_squared_double :
  map (fun r =>
         Numerics.ULPDistance
           (Numerics.double_of_float
              (R3_Norm_double r * R3_Norm_double r))
           (Numerics.double_of_float (Dot r r)))
    [u_double; v_double; w_double; a_double]
  = [0; 1; 1; 1]%Z.
Proof. vm_compute. reflexivity. Qed.

(** On the operands [u], [v] and [a] of the test, the sum of the Jacobi
    identity has one coordinate that is not zero: it is below [1e-13] in
    absolute value, and below [1e-15] times the same coordinate of the
    last of the three brackets that are summed. *)
Example Jacobi_double :
  let jacobi :=
    Bivector_coordinates
      (Jacobi (Frame := World) (Build_Bivector u_double)
         (Build_Bivector v_double) (Build_Bivector a_double)) in
  let bracket :=
    Bivector_coordinates
      (Commutator (Frame := World) (Build_Bivector a_double)
         (Commutator (Build_Bivector u_double) (Build_Bivector v_double))) in
  (abs (x jacobi) <? 1e-13) = true
  /\ (abs (x jacobi) <? 1e-15 * abs (x bracket)) = true
  /\ (y jacobi =? 0) = true /\ (z jacobi =? 0) = true.
Proof. vm_compute. repeat split. Qed.

End GeometryTheory.

(* ===================================================================== *)
(** * Properties of trajectories and of [Integrate] *)
(* ===================================================================== *)

Module DynamicsTheory.

Import Physics Geometry Dynamics Fixtures.

Section TrajectoryLaws.
Context {Frame : Type}.
Local Open Scope float_scope.

Lemma last_sample_app (l : list (Sample Frame)) (s : Sample Frame) :
  last_sample (Build_Trajectory (l ++ [s])) = Some s.
Proof.
  unfold last_sample. cbn [timeline]. rewrite map_app. cbn [map].
  apply last_last.
Qed.

Lemma last_time_none (t : Trajectory Frame) :
  last_time t = None <-> timeline t = [].
Proof.
  destruct t as [l]. cbn [timeline]. split.
  - destruct l as [|s l] using rev_ind; [reflexivity|].
    unfold last_time. rewrite last_sample_app. discriminate.
  - intros ->. reflexivity.
Qed.

Lemma Append_cases (t : Trajectory Frame) p v (time : Time) :
  Append t p v time
  = match last_time t with
    | None => Ok (Build_Trajectory (timeline t ++ [Build_Sample time p v]))
    | Some last =>
        if last <? time
        then Ok (Build_Trajectory (timeline t ++ [Build_Sample time p v]))
        else Fatal "Append out of order"%string
    end.
Proof. reflexivity. Qed.

Lemma last_time_times (l : list (Sample Frame)) :
  last_time (Build_Trajectory l) = last (map Some (map sample_time l)) None.
Proof.
  unfold last_time, last_sample. cbn [timeline].
  induction l as [|s [|s' l] IH]; try reflexivity.
  exact IH.
Qed.

Lemma Sorted_snoc (R : Time -> Time -> Prop) (l : list Time) (b : Time) :
  Sorted R l ->
  (forall a, last (map Some l) None = Some a -> R a b) ->
  Sorted R (l ++ [b]).
Proof.
  induction l as [|a l IH]; intros Hs Hlast; cbn [app].
  - repeat constructor.
  - inversion Hs as [|? ? Hs' Hhd]; subst. constructor.
    + apply IH; [assumption|].
      intros c Hc. apply Hlast. destruct l; [discriminate Hc | exact Hc].
    + destruct l as [|a' l]; cbn [app].
      * constructor. apply Hlast. reflexivity.
      * constructor. inversion Hhd; subst. assumption.
Qed.

Lemma Append_increasing (t : Trajectory Frame) p v (time : Time) :
  forall t', Append t p v time = Ok t' ->
             strictly_increasing t -> strictly_increasing t'.
Proof.
  intros t' H Hs. rewrite Append_cases in H.
  unfold strictly_increasing, times in *. destruct t as [l].
  rewrite last_time_times in H. cbn [timeline] in *.
  destruct (last (map Some (map sample_time l)) None) as [last|] eqn:Hlast.
  - destruct (last <? time) eqn:Hlt; [|discriminate H].
    injection H as <-. cbn [timeline]. rewrite map_app. cbn [map].
    apply Sorted_snoc; [assumption|].
    intros a Ha. cbn [sample_time]. congruence.
  - injection H as <-. cbn [timeline]. rewrite map_app. cbn [map].
    apply Sorted_snoc; [assumption|].
    intros a Ha. congruence.
Qed.

(** C7.  [Append] succeeds exactly when the trajectory is empty or the time
    is strictly greater than the time appended last; an empty trajectory
    takes its first sample; a time that is not greater is a fatal error; and
    a successful [Append] adds the sample at the end, which keeps the times
    of the trajectory strictly increasing. *)
Theorem Append_strictly_increasing
    (t : Trajectory Frame) (p : Vector Length Frame) (v : Vector Speed Frame)
    (time : Time) :
  ((exists t', Append t p v time = Ok t')
   <-> timeline t = []
       \/ exists last, last_time t = Some last /\ (last <? time) = true)
  /\ (timeline t = [] ->
      Append t p v time = Ok (Build_Trajectory [Build_Sample time p v]))
  /\ (forall last, last_time t = Some last -> (last <? time) = false ->
      Append t p v time = Fatal "Append out of order"%string)
  /\ (forall t', Append t p v time = Ok t' ->
      timeline t' = timeline t ++ [Build_Sample time p v])
  /\ (forall t', Append t p v time = Ok t' ->
      strictly_increasing t -> strictly_increasing t').
Proof.
  rewrite <- !and_assoc. split; [rewrite !and_assoc | apply Append_increasing].
  rewrite Append_cases.
  pose proof (last_time_none t) as Hnone.
  destruct (last_time t) as [last|] eqn:Hlast.
  - assert (Hne : timeline t <> []).
    { intros H. apply Hnone in H. discriminate H. }
    destruct (last <? time) eqn:Hlt.
    + split; [|split; [|split]].
      * split; [|intros _; eexists; reflexivity].
        intros _. right. exists last. split; reflexivity || assumption.
      * intros H. contradiction.
      * intros last' H. injection H as <-. rewrite Hlt. discriminate.
      * intros t' H. injection H as <-. reflexivity.
    + split; [|split; [|split]].
      * split.
        -- intros [t' H]. discriminate H.
        -- intros [H | [last' [H H']]]; [contradiction|].
           injection H as <-. rewrite Hlt in H'. discriminate H'.
      * intros H. contradiction.
      * intros last' _ _. reflexivity.
      * intros t' H. discriminate H.
  - assert (He : timeline t = []) by (apply Hnone; reflexivity).
    split; [|split; [|split]].
    + split; [intros _; left; assumption | intros _; eexists; reflexivity].
    + intros _. rewrite He. reflexivity.
    + intros last H. discriminate H.
    + intros t' H. injection H as <-. reflexivity.
Qed.

End TrajectoryLaws.

Section NBodyLaws.
Context {Frame : Type}.
Local Open Scope float_scope.

Lemma Append_times (t t' : Trajectory Frame) p v (time : Time) :
  Append t p v time = Ok t' -> times t' = times t ++ [time].
Proof.
  intros H.
  rewrite Append_cases in H. unfold times.
  destruct (last_time t) as [last|];
    [destruct (last <? time); [|discriminate H]|];
    injection H as <-; cbn [timeline]; rewrite map_app; reflexivity.
Qed.

Lemma AppendAll_times (ts : list (Trajectory Frame)) :
  forall states time ts',
    AppendAll ts states time = Ok ts' ->
    Forall2 (fun t t' => times t' = times t ++ [time]) ts ts'.
Proof.
  induction ts as [|t ts IH]; intros [|state states] time ts' H;
    cbn [AppendAll] in H; try discriminate H.
  - injection H as <-. constructor.
  - destruct (Append t (position state) (velocity state) time) as [t1|] eqn:Ht;
      [|discriminate H].
    destruct (AppendAll ts states time) as [ts1|] eqn:Hts; [|discriminate H].
    injection H as <-. constructor.
    + eapply Append_times; eassumption.
    + eapply IH; eassumption.
Qed.

Lemma synchronized_extended (ts ts' : list (Trajectory Frame)) (time : Time) :
  Forall2 (fun t t' => times t' = times t ++ [time]) ts ts' ->
  synchronized ts -> synchronized ts'.
Proof.
  intros Hall Hsync t1' t2' H1 H2.
  assert (Hpre : forall t', In t' ts' ->
            exists t, In t ts /\ times t' = times t ++ [time]).
  { clear -Hall. induction Hall as [|t t' ts ts' Ht Hall IH]; intros a Ha.
    - destruct Ha.
    - destruct Ha as [<- | Ha].
      + exists t. split; [left; reflexivity | assumption].
      + destruct (IH a Ha) as [b [Hb Hab]]. exists b.
        split; [right; assumption | assumption]. }
  destruct (Hpre t1' H1) as [t1 [Hin1 E1]].
  destruct (Hpre t2' H2) as [t2 [Hin2 E2]].
  rewrite E1, E2, (Hsync t1 t2 Hin1 Hin2). reflexivity.
Qed.

Lemma IntegrateSteps_synchronized (steps : nat) :
  forall coefficients bodies dt sampling_period step_index time states
         (ts : list (Trajectory Frame)),
    synchronized ts ->
    synchronized
      (snd (IntegrateSteps steps coefficients bodies dt sampling_period
              step_index time states ts)).
Proof.
  induction steps as [|steps IH]; intros coefficients bodies dt
    sampling_period step_index time states ts Hsync; cbn [IntegrateSteps].
  - assumption.
  - destruct (_ =? _)%Z.
    + destruct (AppendAll ts _ _) as [ts'|message] eqn:Happ.
      * apply IH. eapply synchronized_extended; [|eassumption].
        eapply AppendAll_times; eassumption.
      * assumption.
    + apply IH; assumption.
Qed.

(** C8.  [Integrate] with a time step that is not positive ends in a fatal
    error and leaves the system, hence each of its trajectories, as it was;
    and whatever its outcome, [Integrate] leaves trajectories that carried
    the same time stamps with the same time stamps. *)
Theorem Integrate_rejects_non_positive_step
    (integrator : SPRKIntegrator) (duration dt : Time) (sampling_period : Z)
    (system : NBodySystem Frame) :
  ((dt <=? 0) = true ->
   Integrate integrator duration dt sampling_period system
   = (Fatal "Non-positive time step"%string, system))
  /\ ((dt <=? 0) = true ->
      trajectories
        (snd (Integrate integrator duration dt sampling_period system))
      = trajectories system)
  /\ (synchronized (trajectories system) ->
      synchronized
        (trajectories
           (snd (Integrate integrator duration dt sampling_period system)))).
Proof.
  unfold Integrate. split; [|split].
  - intros ->. reflexivity.
  - intros ->. reflexivity.
  - intros Hsync.
    destruct (dt <=? 0); [assumption|].
    destruct (sampling_period <=? 0)%Z; [assumption|].
    destruct (match massive_bodies system with
              | [] => _ | _ => _ end); [assumption|].
    destruct (coefficients integrator) as [coefficients|]; [|assumption].
    destruct (current_time (trajectories system)) as [time|]; [|assumption].
    destruct (current_states (trajectories system)) as [states|];
      [|assumption].
    pose proof (IntegrateSteps_synchronized (requested_steps duration dt)
                  coefficients (massive_bodies system) dt sampling_period
                  0%Z time states (trajectories system) Hsync) as H.
    destruct (IntegrateSteps _ _ _ _ _ _ _ _ _) as [outcome ts].
    exact H.
Qed.

End NBodyLaws.

Local Open Scope float_scope.

(** C7 on the fixture: the first sample of a fresh trajectory is accepted,
    a second sample at the same time is not. *)
Lemma Append_strictly_increasing_witness :
  Append empty_trajectory
    (Build_Vector (Build_R3Element 0 (-4612850) 0))
    (Build_Vector (Build_R3Element (-12) 0 0)) 0
  = Ok trajectory1
  /\ Append trajectory1
       (Build_Vector (Build_R3Element 0 (-4612850) 0))
       (Build_Vector (Build_R3Element (-12) 0 0)) 0
     = Fatal "Append out of order"%string.
Proof.
  split.
  - exact (proj1 (proj2 (Append_strictly_increasing empty_trajectory _ _ 0))
             eq_refl).
  - exact (proj1 (proj2 (proj2 (Append_strictly_increasing trajectory1 _ _ 0)))
             0 eq_refl eq_refl).
Defined.

(** C8 on the fixture, with the integrator of the test: a step of -1 time
    unit, and a step of 0. *)
Lemma Integrate_rejects_non_positive_step_witness :
  Integrate (Initialize Order5Optimal uninitialized) 100 (-1) 1 earth_moon
  = (Fatal "Non-positive time step"%string, earth_moon)
  /\ Integrate (Initialize Order5Optimal uninitialized) 100 0 1 earth_moon
     = (Fatal "Non-positive time step"%string, earth_moon).
Proof.
  split.
  - exact (proj1
             (Integrate_rejects_non_positive_step
                (Initialize Order5Optimal uninitialized) 100 (-1) 1%Z
                earth_moon)
             eq_refl).
  - exact (proj1
             (Integrate_rejects_non_positive_step
                (Initialize Order5Optimal uninitialized) 100 0 1%Z earth_moon)
             eq_refl).
Defined.

(** ** The fixture of the test *)

(** [SetUp] succeeds, with the integrator and the two bodies of the
    witnesses above, and two trajectories of one sample each, at the
    time 0. *)
Example SetUp_fixture :
  match SetUp G_SI with
  | Ok fixture =>
      integrator_ fixture = Initialize Order5Optimal uninitialized
      /\ massive_bodies (system_ fixture) = massive_bodies earth_moon
      /\ massless_bodies (system_ fixture) = []
      /\ map times (trajectories (system_ fixture)) = [[0]; [0]]
  | Fatal _ => False
  end.
Proof. vm_compute. repeat split. Qed.

End DynamicsTheory.

(* ===================================================================== *)
(** * [ULPDistance] and the order of the doubles *)
(* ===================================================================== *)

Module OrdinalTheory.

Import Numerics NumericsTheory Ordinals FloatTheory.
Local Open Scope Z_scope.

(** ** Magnitudes and ranks *)

Lemma magnitude_spec (x : double) :
  bits x = (if sign_bit x then 2 ^ 63 else 0) + magnitude x
  /\ 0 <= magnitude x < 2 ^ 63.
Proof.
  pose proof (bits_bounds x) as Hb. unfold magnitude.
  rewrite sign_bit_spec, Z.land_ones by lia.
  destruct (Z.leb_spec (2 ^ 63) (bits x)); pow2;
    Z.div_mod_to_equations; lia.
Qed.

Lemma magnitude_fields (x : double) :
  magnitude x = 2 ^ 52 * biased_exponent x + fraction x.
Proof.
  pose proof (bit_fields x) as (Hx & He & Hf).
  pose proof (magnitude_spec x) as (Hm & Hr).
  destruct (sign_bit x); lia.
Qed.

Lemma magnitude_ordinal (x : double) : magnitude x = Z.abs (ordinal x).
Proof.
  pose proof (magnitude_spec x) as (_ & Rx). unfold ordinal.
  destruct (sign_bit x); lia.
Qed.

Lemma ordinal_bounds (x : double) : - 2 ^ 63 < ordinal x < 2 ^ 63.
Proof.
  pose proof (magnitude_spec x) as (Hx & Rx). unfold ordinal.
  destruct (sign_bit x); lia.
Qed.

Lemma double_eq_ordinal (x y : double) :
  double_eq x y = true -> ordinal x = ordinal y.
Proof.
  unfold double_eq. destruct (is_nan x || is_nan y); [discriminate|].
  pose proof (magnitude_spec x) as (Hx & Rx).
  pose proof (magnitude_spec y) as (Hy & Ry).
  destruct (is_zero x && is_zero y) eqn:Hz.
  - apply andb_prop in Hz as [Hzx Hzy].
    apply is_zero_bits in Hzx, Hzy. intros _. unfold ordinal.
    destruct (sign_bit x), (sign_bit y); lia.
  - intros H. apply Z.eqb_eq in H. apply double_ext in H. subst y.
    reflexivity.
Qed.

Lemma is_nan_magnitude (x : double) :
  is_nan x = (2047 * 2 ^ 52 <? magnitude x).
Proof.
  pose proof (bit_fields x) as (_ & He & Hf).
  pose proof (magnitude_fields x) as Hm. unfold is_nan.
  destruct (Z.eqb_spec (biased_exponent x) 2047),
           (Z.eqb_spec (fraction x) 0),
           (Z.ltb_spec (2047 * 2 ^ 52) (magnitude x));
    cbn [andb negb]; try reflexivity; exfalso; pow2; lia.
Qed.

(** [x == y]: neither is a NaN, and the ranks are equal. *)
Lemma double_eq_spec (x y : double) :
  double_eq x y
  = negb (is_nan x) && negb (is_nan y) && (ordinal x =? ordinal y).
Proof.
  destruct (double_eq x y) eqn:E.
  - pose proof (double_eq_ordinal x y E) as Ho.
    unfold double_eq in E.
    destruct (is_nan x), (is_nan y); try discriminate E.
    rewrite Ho, Z.eqb_refl. reflexivity.
  - unfold double_eq in E.
    destruct (is_nan x), (is_nan y); try reflexivity.
    cbn [orb negb andb] in *.
    destruct (Z.eqb_spec (ordinal x) (ordinal y)) as [Ho | Ho];
      [exfalso | reflexivity].
    pose proof (magnitude_spec x) as (Hx & Rx).
    pose proof (magnitude_spec y) as (Hy & Ry).
    destruct (is_zero x && is_zero y) eqn:Hz; [discriminate E|].
    apply Z.eqb_neq in E. unfold ordinal in Ho.
    destruct (sign_bit x) eqn:Sx, (sign_bit y) eqn:Sy;
      try (apply E; lia);
      (assert (Zx : is_zero x = true)
         by (apply is_zero_bits; rewrite Sx; lia));
      (assert (Zy : is_zero y = true)
         by (apply is_zero_bits; rewrite Sy; lia));
      rewrite Zx, Zy in Hz; discriminate Hz.
Qed.

Lemma wrap64_large (z : Z) :
  2 ^ 63 <= z < 2 ^ 64 -> wrap64 z = z - 2 ^ 64.
Proof. unfold wrap64. pow2. intros H. Z.div_mod_to_equations. lia. Qed.

(** ** The distance, in closed form *)

Lemma ULPDistance_closed_form (x y : double) :
  ULPDistance x y = wrap64 (Z.abs (ordinal x - ordinal y)).
Proof.
  pose proof (magnitude_spec x) as (Hx & Rx).
  pose proof (magnitude_spec y) as (Hy & Ry).
  destruct (double_eq x y) eqn:E.
  - rewrite ULPDistance_cases, E.
    rewrite (double_eq_ordinal x y E), Z.sub_diag. reflexivity.
  - destruct (sign_bit x) eqn:Sx, (sign_bit y) eqn:Sy.
    + rewrite ULPDistance_cases, E, Sx, Sy. cbn [Bool.eqb].
      rewrite abs64_sub64_same_sign by (rewrite Sx, Sy; reflexivity).
      unfold ordinal. rewrite Sx, Sy. rewrite wrap64_small by lia.
      lia.
    + rewrite ULPDistance_sym, ULPDistance_opposite by assumption.
      rewrite ULPDistance_pos_zero, ULPDistance_neg_zero by assumption.
      unfold ordinal, add64. rewrite Sx, Sy. f_equal. lia.
    + rewrite ULPDistance_opposite by assumption.
      rewrite ULPDistance_pos_zero, ULPDistance_neg_zero by assumption.
      unfold ordinal, add64. rewrite Sx, Sy. f_equal. lia.
    + rewrite ULPDistance_cases, E, Sx, Sy. cbn [Bool.eqb].
      rewrite abs64_sub64_same_sign by (rewrite Sx, Sy; reflexivity).
      unfold ordinal. rewrite Sx, Sy. rewrite wrap64_small by lia.
      lia.
Qed.

Lemma ULPDistance_negative (x y : double) :
  ULPDistance x y < 0 <-> 2 ^ 63 <= Z.abs (ordinal x - ordinal y).
Proof.
  pose proof (ordinal_bounds x) as Bx. pose proof (ordinal_bounds y) as By.
  rewrite ULPDistance_closed_form.
  destruct (Z.lt_ge_cases (Z.abs (ordinal x - ordinal y)) (2 ^ 63)) as [H|H].
  - rewrite wrap64_small by lia. lia.
  - rewrite wrap64_large by (pow2; lia). pow2. lia.
Qed.

(** X1.  [ULPDistance] has a closed form: it is the distance between the
    ranks of its operands on the line of the sign-magnitude integers,
    reduced to [int64_t]; as long as that distance is below [2 ^ 63], it
    is that distance. *)
Theorem ULPDistance_ordinal (x y : double) :
  ULPDistance x y = wrap64 (Z.abs (ordinal x - ordinal y))
  /\ (Z.abs (ordinal x - ordinal y) < 2 ^ 63 ->
      ULPDistance x y = Z.abs (ordinal x - ordinal y)).
Proof.
  split; [apply ULPDistance_closed_form|].
  intros H. rewrite ULPDistance_closed_form. apply wrap64_small. lia.
Qed.

(** X2.  [ULPDistance] is negative exactly when its operands differ in
    sign and their magnitudes add up to [2 ^ 63] or more, and it is then
    that sum less [2 ^ 64]; this happens between any two doubles of
    opposite sign whose biased exponents are at least 1024 (absolute
    values of 2 or more, infinities, NaNs), and never when both biased
    exponents are below 1024. *)
Theorem ULPDistance_overflow (x y : double) :
  (ULPDistance x y < 0 <->
     sign_bit x <> sign_bit y /\ 2 ^ 63 <= magnitude x + magnitude y)
  /\ (ULPDistance x y < 0 ->
      ULPDistance x y = magnitude x + magnitude y - 2 ^ 64)
  /\ (sign_bit x <> sign_bit y ->
      1024 <= biased_exponent x -> 1024 <= biased_exponent y ->
      ULPDistance x y < 0)
  /\ (biased_exponent x < 1024 -> biased_exponent y < 1024 ->
      0 <= ULPDistance x y).
Proof.
  pose proof (magnitude_spec x) as (Hx & Rx).
  pose proof (magnitude_spec y) as (Hy & Ry).
  pose proof (magnitude_fields x) as Fx.
  pose proof (magnitude_fields y) as Fy.
  pose proof (bit_fields x) as (_ & Ex & Fx').
  pose proof (bit_fields y) as (_ & Ey & Fy').
  assert (Hneg : ULPDistance x y < 0 <->
     sign_bit x <> sign_bit y /\ 2 ^ 63 <= magnitude x + magnitude y).
  { rewrite ULPDistance_negative. unfold ordinal.
    destruct (sign_bit x), (sign_bit y); split;
      try (intros [Hs H]); try intros H;
      try (exfalso; apply Hs; reflexivity); try (exfalso; lia);
      try (split; [discriminate | lia]); lia. }
  split; [exact Hneg|]. split; [|split].
  - intros H. apply Hneg in H as [Hs H].
    rewrite ULPDistance_closed_form. unfold ordinal.
    destruct (sign_bit x), (sign_bit y);
      try (exfalso; apply Hs; reflexivity);
      rewrite wrap64_large by (pow2; lia); lia.
  - intros Hs H1 H2. apply Hneg. split; [assumption|]. pow2. lia.
  - intros H1 H2.
    destruct (Z.lt_ge_cases (ULPDistance x y) 0) as [H|H]; [|assumption].
    apply Hneg in H as [_ H]. pow2. lia.
Qed.

(** X3.  Where it does not overflow, [ULPDistance] satisfies the triangle
    inequality: if the distances from [x] to [y] and from [y] to [z] are
    not negative, the distance from [x] to [z] is at most their sum. *)
Theorem ULPDistance_triangle (x y z : double) :
  0 <= ULPDistance x y -> 0 <= ULPDistance y z ->
  ULPDistance x z <= ULPDistance x y + ULPDistance y z.
Proof.
  intros Hxy Hyz.
  pose proof (ordinal_bounds x) as Bx. pose proof (ordinal_bounds y) as By.
  pose proof (ordinal_bounds z) as Bz.
  pose proof (ULPDistance_negative x y) as Nxy.
  pose proof (ULPDistance_negative y z) as Nyz.
  rewrite (ULPDistance_closed_form x y), (ULPDistance_closed_form y z) in *.
  rewrite (ULPDistance_closed_form x z).
  rewrite (wrap64_small (Z.abs (ordinal x - ordinal y))) in * by lia.
  rewrite (wrap64_small (Z.abs (ordinal y - ordinal z))) in * by lia.
  destruct (Z.lt_ge_cases (Z.abs (ordinal x - ordinal z)) (2 ^ 63)) as [H|H].
  - rewrite wrap64_small by lia. lia.
  - rewrite wrap64_large by (pow2; lia). pow2. lia.
Qed.

(** ** The doubles of the floating-point arithmetic of the kernel *)

Lemma key_bounds (s : bool) (m : positive) (e : Z) :
  valid_binary (S754_finite s m e) = true ->
  0 < key m e < 2047 * 2 ^ 52.
Proof.
  intros H. apply valid_finite in H. unfold key.
  destruct (Z.ltb_spec (Z.pos m) (2 ^ 52)); pow2;
    change (2 ^ 53) with 9007199254740992 in *; lia.
Qed.

Lemma of_bits_small (z : Z) : 0 <= z < 2 ^ 64 -> bits (of_bits z) = z.
Proof. intros H. cbn [of_bits bits]. apply Z.mod_small. assumption. Qed.

Lemma ordinal_of_bits (s : bool) (k : Z) :
  0 <= k < 2 ^ 63 ->
  ordinal (of_bits ((if s then 2 ^ 63 else 0) + k)) = if s then - k else k.
Proof.
  intros Hk.
  pose proof (magnitude_spec (of_bits ((if s then 2 ^ 63 else 0) + k)))
    as (Hm & Hr).
  unfold ordinal. rewrite sign_bit_spec in *.
  rewrite of_bits_small in * by (destruct s; pow2; lia).
  destruct s.
  - destruct (Z.leb_spec (2 ^ 63) (2 ^ 63 + k)); lia.
  - destruct (Z.leb_spec (2 ^ 63) (0 + k)); lia.
Qed.

Lemma ordinal_double_of_float (f : float) :
  ordinal (double_of_float f) = spec_ordinal (Prim2SF f).
Proof.
  unfold double_of_float. pose proof (Prim2SF_valid f) as Hv.
  destruct (Prim2SF f) as [s | s | | s m e]; cbn [spec_ordinal].
  - replace (if s then 2 ^ 63 else 0) with ((if s then 2 ^ 63 else 0) + 0)
      by (destruct s; reflexivity).
    rewrite ordinal_of_bits by (pow2; lia). destruct s; reflexivity.
  - rewrite ordinal_of_bits by (pow2; lia). reflexivity.
  - reflexivity.
  - fold (key m e). apply key_bounds in Hv.
    rewrite ordinal_of_bits by (pow2; lia). reflexivity.
Qed.

(** The magnitudes of two finite doubles compare as their exponents and
    then their mantissas do. *)
Lemma key_compare (s1 s2 : bool) (m1 m2 : positive) (e1 e2 : Z) :
  valid_binary (S754_finite s1 m1 e1) = true ->
  valid_binary (S754_finite s2 m2 e2) = true ->
  (key m1 e1 ?= key m2 e2)
  = match e1 ?= e2 with
    | Lt => Lt
    | Gt => Gt
    | Eq => Pos.compare_cont Eq m1 m2
    end.
Proof.
  intros H1 H2. apply valid_finite in H1, H2.
  change (Pos.compare_cont Eq m1 m2) with (Z.pos m1 ?= Z.pos m2).
  unfold key.
  destruct (Z.ltb_spec (Z.pos m1) (2 ^ 52)),
           (Z.ltb_spec (Z.pos m2) (2 ^ 52));
    destruct (Z.compare_spec e1 e2);
    destruct (Z.compare_spec (Z.pos m1) (Z.pos m2));
    cbv iota; pow2; change (2 ^ 53) with 9007199254740992 in *;
    first [ reflexivity | exfalso; lia
          | apply Z.compare_eq_iff; lia | apply Z.compare_lt_iff; lia
          | apply Z.compare_gt_iff; lia ].
Qed.

(** The comparison of IEEE 754 is the comparison of the ranks. *)
Lemma spec_ordinal_compare (a b : spec_float) (c : comparison) :
  valid_binary a = true -> valid_binary b = true ->
  SFcompare a b = Some c -> (spec_ordinal a ?= spec_ordinal b) = c.
Proof.
  intros Ha Hb.
  destruct a as [sa | sa | | sa ma ea], b as [sb | sb | | sb mb eb];
    cbn [SFcompare spec_ordinal]; try discriminate;
    try (pose proof (key_bounds _ _ _ Ha) as Ka);
    try (pose proof (key_bounds _ _ _ Hb) as Kb);
    intros H; injection H as <-.
  - reflexivity.
  - destruct sb; reflexivity.
  - destruct sb; [apply Z.compare_gt_iff | apply Z.compare_lt_iff]; lia.
  - destruct sa; reflexivity.
  - destruct sa, sb; reflexivity.
  - destruct sa, sb;
      [apply Z.compare_lt_iff | apply Z.compare_lt_iff
      | apply Z.compare_gt_iff | apply Z.compare_gt_iff]; pow2; lia.
  - destruct sa; [apply Z.compare_lt_iff | apply Z.compare_gt_iff]; lia.
  - destruct sa, sb;
      [apply Z.compare_gt_iff | apply Z.compare_lt_iff
      | apply Z.compare_gt_iff | apply Z.compare_lt_iff]; pow2; lia.
  - destruct sa, sb.
    + rewrite Z.compare_opp, (key_compare _ _ _ _ _ _ Hb Ha).
      rewrite (Z.compare_antisym ea eb).
      rewrite Pos.compare_cont_antisym.
      destruct (ea ?= eb); reflexivity.
    + apply Z.compare_lt_iff; lia.
    + apply Z.compare_gt_iff; lia.
    + apply (key_compare _ _ _ _ _ _ Ha Hb).
Qed.

Lemma spec_ordinal_nan (a : spec_float) :
  valid_binary a = true ->
  (2047 * 2 ^ 52 <? Z.abs (spec_ordinal a))
  = match a with S754_nan => true | _ => false end.
Proof.
  intros Hv. destruct a as [s | s | | s m e]; cbn [spec_ordinal].
  - reflexivity.
  - destruct s; apply Z.ltb_ge; pow2; lia.
  - reflexivity.
  - apply key_bounds in Hv. destruct s; apply Z.ltb_ge; lia.
Qed.

Lemma is_nan_double_of_float (f : float) :
  is_nan (double_of_float f)
  = match Prim2SF f with S754_nan => true | _ => false end.
Proof.
  rewrite is_nan_magnitude, magnitude_ordinal, ordinal_double_of_float.
  apply spec_ordinal_nan, Prim2SF_valid.
Qed.

(** The test [x == y] of the function, on bit patterns, is the equality
    of IEEE 754. *)
Lemma double_eq_double_of_float (f g : float) :
  double_eq (double_of_float f) (double_of_float g) = (f =? g)%float.
Proof.
  rewrite double_eq_spec, !is_nan_double_of_float, !ordinal_double_of_float.
  rewrite eqb_spec. unfold SFeqb.
  pose proof (spec_ordinal_compare (Prim2SF f) (Prim2SF g)) as Hc.
  pose proof (SFcompare_nan (Prim2SF f) (Prim2SF g)) as Hn.
  specialize (fun c => Hc c (Prim2SF_valid f) (Prim2SF_valid g)).
  set (a := Prim2SF f) in *. set (b := Prim2SF g) in *.
  destruct (SFcompare a b) as [c|].
  - specialize (Hc c eq_refl).
    assert (Ha : match a with S754_nan => true | _ => false end = false).
    { destruct a; try reflexivity.
      assert (Some c = None) as H by (apply Hn; auto). discriminate H. }
    assert (Hb : match b with S754_nan => true | _ => false end = false).
    { destruct b; try reflexivity.
      assert (Some c = None) as H by (apply Hn; auto). discriminate H. }
    rewrite Ha, Hb. cbn [negb andb].
    destruct c;
      [apply Z.eqb_eq, Z.compare_eq_iff, Hc
      |pose proof (proj1 (Z.compare_lt_iff _ _) Hc); apply Z.eqb_neq; lia
      |pose proof (proj1 (Z.compare_gt_iff _ _) Hc); apply Z.eqb_neq; lia].
  - destruct (proj1 Hn eq_refl) as [-> | ->]; cbn [negb andb];
      [reflexivity | rewrite andb_false_r; reflexivity].
Qed.

Lemma leb_ordinal (f g : float) :
  (f <=? g)%float = true ->
  ordinal (double_of_float f) <= ordinal (double_of_float g).
Proof.
  rewrite leb_spec, !ordinal_double_of_float. unfold SFleb.
  pose proof (spec_ordinal_compare (Prim2SF f) (Prim2SF g)) as Hc.
  specialize (fun c => Hc c (Prim2SF_valid f) (Prim2SF_valid g)).
  destruct (SFcompare (Prim2SF f) (Prim2SF g)) as [[| |]|]; try discriminate;
    intros _.
  - apply Z.eq_le_incl, Z.compare_eq_iff, Hc. reflexivity.
  - apply Z.lt_le_incl, Z.compare_lt_iff, Hc. reflexivity.
Qed.

(** X4.  On the doubles of IEEE 754 arithmetic, the test [x == y] of
    [ULPDistance] is the equality of IEEE 754; the distance between two
    doubles neither of which is NaN is 0 exactly when they are equal in
    that sense, as [+0.0] and [-0.0] are.  A NaN, whatever its bits, is
    equal to no double, and is at distance 0 from the double of the same
    bits only. *)
Theorem ULPDistance_equal_doubles (f g : float) :
  double_eq (double_of_float f) (double_of_float g) = (f =? g)%float
  /\ (PrimFloat.is_nan f = false -> PrimFloat.is_nan g = false ->
      (ULPDistance (double_of_float f) (double_of_float g) = 0
       <-> (f =? g)%float = true))
  /\ (forall x y : double, is_nan x = true ->
        double_eq x y = false /\ double_eq y x = false
        /\ (ULPDistance x y = 0 <-> x = y)).
Proof.
  split; [apply double_eq_double_of_float|]. split.
  - intros Hf _. rewrite ULPDistance_zero_iff, double_eq_double_of_float.
    split; [|left; assumption].
    intros [E | E]; [assumption|].
    rewrite <- double_eq_double_of_float, <- E, double_eq_refl.
    rewrite is_nan_double_of_float, <- is_nan_spec, Hf. reflexivity.
  - intros x y Hx.
    assert (Exy : double_eq x y = false)
      by (unfold double_eq; rewrite Hx; reflexivity).
    assert (Eyx : double_eq y x = false)
      by (unfold double_eq; rewrite Hx, orb_true_r; reflexivity).
    split; [exact Exy|]. split; [exact Eyx|].
    rewrite ULPDistance_zero_iff, Exy. split; [|right; assumption].
    intros [E | E]; [discriminate E | exact E].
Qed.

(** Two NaNs of different bits are not at distance 0: the quiet NaN is one
    unit away from the NaN whose fraction is one more, and at a negative
    distance from the quiet NaN of the other sign. *)
Example ULPDistance_between_nans :
  ULPDistance quiet_nan quiet_nan_payload = 1
  /\ ULPDistance quiet_nan minus_quiet_nan = -4503599627370496.
Proof. split; vm_compute; reflexivity. Qed.

(** X5.  [ULPDistance] counts along the order of the doubles: for
    [f <= g <= h], if the distance from [f] to [h] does not overflow, it
    is the sum of the distances from [f] to [g] and from [g] to [h], so
    that a double between two others is at most as far from each as they
    are from one another. *)
Theorem ULPDistance_ordered (f g h : float) :
  (f <=? g)%float = true -> (g <=? h)%float = true ->
  0 <= ULPDistance (double_of_float f) (double_of_float h) ->
  ULPDistance (double_of_float f) (double_of_float h)
  = ULPDistance (double_of_float f) (double_of_float g)
    + ULPDistance (double_of_float g) (double_of_float h)
  /\ 0 <= ULPDistance (double_of_float f) (double_of_float g)
          <= ULPDistance (double_of_float f) (double_of_float h)
  /\ 0 <= ULPDistance (double_of_float g) (double_of_float h)
          <= ULPDistance (double_of_float f) (double_of_float h).
Proof.
  intros Hfg Hgh Hpos.
  apply leb_ordinal in Hfg, Hgh.
  pose proof (ULPDistance_negative (double_of_float f) (double_of_float h))
    as Hn.
  rewrite !ULPDistance_closed_form in *.
  set (a := ordinal (double_of_float f)) in *.
  set (b := ordinal (double_of_float g)) in *.
  set (c := ordinal (double_of_float h)) in *.
  assert (Hac : Z.abs (a - c) < 2 ^ 63) by lia.
  rewrite (wrap64_small (Z.abs (a - c))) by lia.
  rewrite (wrap64_small (Z.abs (a - b))) by lia.
  rewrite (wrap64_small (Z.abs (b - c))) by lia.
  lia.
Qed.

(** X1 at [1] and [-1]: twice the bit pattern of [1]. *)
Lemma ULPDistance_ordinal_witness :
  Z.abs (ordinal one - ordinal minus_one) < 2 ^ 63
  /\ ULPDistance one minus_one = Z.abs (ordinal one - ordinal minus_one).
Proof.
  split; [reflexivity|].
  apply (proj2 (ULPDistance_ordinal one minus_one)). reflexivity.
Defined.

(** X2 at [2] and [-2]: the distance is negative. *)
Lemma ULPDistance_overflow_witness :
  sign_bit two <> sign_bit minus_two
  /\ 1024 <= biased_exponent two
  /\ 1024 <= biased_exponent minus_two
  /\ ULPDistance two minus_two < 0.
Proof.
  assert (Hs : sign_bit two <> sign_bit minus_two) by discriminate.
  assert (H2 : 1024 <= biased_exponent two) by discriminate.
  assert (Hm : 1024 <= biased_exponent minus_two) by discriminate.
  split; [exact Hs|]. split; [exact H2|]. split; [exact Hm|].
  exact (proj1 (proj2 (proj2 (ULPDistance_overflow two minus_two)))
           Hs H2 Hm).
Defined.

(** X3 from [1] to [-1] through [+0.0]. *)
Lemma ULPDistance_triangle_witness :
  0 <= ULPDistance one pos_zero
  /\ 0 <= ULPDistance pos_zero minus_one
  /\ ULPDistance one minus_one
     <= ULPDistance one pos_zero + ULPDistance pos_zero minus_one.
Proof.
  assert (H1 : 0 <= ULPDistance one pos_zero) by (vm_compute; discriminate).
  assert (H2 : 0 <= ULPDistance pos_zero minus_one)
    by (vm_compute; discriminate).
  split; [exact H1|]. split; [exact H2|].
  exact (ULPDistance_triangle one pos_zero minus_one H1 H2).
Defined.

(** X5 from [-1] to [1] through [0]. *)
Lemma ULPDistance_ordered_witness :
  ULPDistance (double_of_float (-1)) (double_of_float 1)
  = ULPDistance (double_of_float (-1)) (double_of_float 0)
    + ULPDistance (double_of_float 0) (double_of_float 1).
Proof.
  assert (H : 0 <= ULPDistance (double_of_float (-1)) (double_of_float 1))
    by (vm_compute; discriminate).
  exact (proj1 (ULPDistance_ordered (-1) 0 1 eq_refl eq_refl H)).
Defined.

End OrdinalTheory.

(* ===================================================================== *)
(** * Properties of the error norms *)
(* ===================================================================== *)

Module ErrorNormsTheory.

Import Physics Geometry ErrorNorms FloatTheory.
Local Open Scope float_scope.

(** X6.  The absolute error of two quantities does not depend on which
    one is the expected one, and it is never below zero; this holds for
    every double, the infinities and NaN included. *)
Theorem AbsoluteError_symmetric (expected actual : Quantity) :
  AbsoluteError_Quantity expected actual
  = AbsoluteError_Quantity actual expected
  /\ AbsoluteError_Dimensionless expected actual
     = AbsoluteError_Dimensionless actual expected
  /\ (AbsoluteError_Quantity expected actual <? 0) = false.
Proof.
  unfold AbsoluteError_Dimensionless, AbsoluteError_Quantity, AbsoluteError,
    Abs, minus, Difference_Quantity.
  split; [apply sub_abs_sym|]. split; [apply sub_abs_sym|].
  rewrite ltb_spec, abs_spec, Prim2SF_zero.
  destruct (Prim2SF (expected - actual)) as [s | s | | s m e]; reflexivity.
Qed.

(** X7.  The absolute error of a quantity against itself is [+0] when the
    quantity is finite, and NaN when it is an infinity or NaN. *)
Theorem AbsoluteError_self (x : Quantity) :
  AbsoluteError_Quantity x x = if is_finite x then 0 else nan.
Proof.
  unfold AbsoluteError_Quantity, AbsoluteError, Abs, minus,
    Difference_Quantity, is_finite.
  rewrite is_nan_spec, is_infinity_spec.
  apply Prim2SF_inj. rewrite abs_spec, sub_spec, SFsub_diag.
  destruct (Prim2SF x); reflexivity.
Qed.

(** X8.  The relative error of a number against itself is [+0] when the
    number is finite and not zero, and NaN otherwise: for a zero it is
    the quotient of two zeros. *)
Theorem RelativeError_self (x : Dimensionless) :
  RelativeError_Dimensionless x x
  = if is_finite x && negb (is_zero x) then 0 else nan.
Proof.
  unfold RelativeError_Dimensionless, RelativeError, Abs, minus,
    Difference_Quantity, is_finite.
  rewrite is_nan_spec, is_infinity_spec, is_zero_spec.
  apply Prim2SF_inj. rewrite div_spec, !abs_spec, sub_spec, SFsub_diag.
  destruct (Prim2SF x); reflexivity.
Qed.

(** X9.  The relative error against an expected value of zero is never a
    finite number: it is NaN when the actual value is a zero or NaN, and
    [+infinity] for every other actual value. *)
Theorem RelativeError_zero_expected (expected actual : Dimensionless) :
  is_zero expected = true ->
  RelativeError_Dimensionless expected actual
  = if is_nan actual || is_zero actual then nan else infinity.
Proof.
  unfold RelativeError_Dimensionless, RelativeError, Abs, minus,
    Difference_Quantity.
  rewrite !is_zero_spec, is_nan_spec. intros Hz.
  apply Prim2SF_inj. rewrite div_spec, !abs_spec, sub_spec.
  destruct (Prim2SF expected) as [se | | |]; try discriminate Hz.
  destruct (Prim2SF actual) as [s | s | | s m e]; try reflexivity;
    destruct se, s; reflexivity.
Qed.

(** X10.  The absolute error of two tuples, the norm of their difference,
    does not depend on which one is the expected one, whatever doubles
    their coordinates are. *)
Theorem AbsoluteError_R3Element_symmetric
    (expected actual : R3Element Quantity) :
  AbsoluteError_R3Element expected actual
  = AbsoluteError_R3Element actual expected.
Proof.
  unfold AbsoluteError_R3Element, AbsoluteError, minus,
    Difference_R3Element, R3_Norm_double, R3_sub, Dot.
  cbn [x y z s_add s_mul s_sub Scalar_double].
  rewrite (mul_abs_eq _ _ (sub_abs_sym (x expected) (x actual))).
  rewrite (mul_abs_eq _ _ (sub_abs_sym (y expected) (y actual))).
  rewrite (mul_abs_eq _ _ (sub_abs_sym (z expected) (z actual))).
  reflexivity.
Qed.

(** X9 at an expected value of [-0.0] and an actual value of [1]. *)
Lemma RelativeError_zero_expected_witness :
  is_zero (-0) = true /\ RelativeError_Dimensionless (-0) 1 = infinity.
Proof.
  split; [reflexivity|].
  exact (RelativeError_zero_expected (-0) 1 eq_refl).
Defined.

(** The relative error is not symmetric: of [1] against [2] and of [2]
    against [1]. *)
Example RelativeError_not_symmetric :
  RelativeError_Dimensionless 2 1 = 0.5
  /\ RelativeError_Dimensionless 1 2 = 1.
Proof. split; reflexivity. Qed.

End ErrorNormsTheory.

(* ===================================================================== *)
(** * Properties of the messages of [MassiveBody] *)
(* ===================================================================== *)

Module SerializationTheory.

Import Physics Serialization Fixtures FloatTheory.
Local Open Scope float_scope.

(** X11.  The constructors do not reject NaN: the checks compare with
    zero, and NaN differs from it.  A body constructed from a NaN, as a
    mass or as a gravitational parameter, has NaN for both quantities. *)
Theorem MassiveBody_nan_is_accepted (G q : Quantity) :
  is_nan q = true ->
  MassiveBody_from_mass G q = Ok (Build_MassiveBody nan nan)
  /\ MassiveBody_from_gravitational_parameter G q
     = Ok (Build_MassiveBody nan nan).
Proof.
  intros H. apply is_nan_eq in H. subst q.
  unfold MassiveBody_from_mass, MassiveBody_from_gravitational_parameter,
    CHECK_NE.
  rewrite nan_eqb, nan_mul, nan_div. split; reflexivity.
Qed.

Section Messages.
Context {messages : Messages} {oblate_bodies : OblateBodies}.
Variable G : Quantity.

(** ** Reading *)

Lemma OBLATE_BODY_TAG_VALUE_CASE_result
    (frame_tag : FrameTag) (message : MassiveBody_message)
    (pointer : MassiveBody_pointer) :
  OBLATE_BODY_TAG_VALUE_CASE frame_tag message = Ok pointer ->
  exists body,
    pointer = Oblate frame_tag body
    /\ OblateBody_ReadFromMessage frame_tag message = Ok body.
Proof.
  unfold OBLATE_BODY_TAG_VALUE_CASE.
  destruct (OblateBody_ReadFromMessage frame_tag message) as [body | failure];
    [|discriminate].
  intros H. injection H as <-. exists body. split; reflexivity.
Qed.

Lemma switch_some {Tag : Type} (tag_number : Tag -> Z) (cases : list Tag)
    (value : Z) (tag : Tag) :
  switch tag_number cases value = Some tag ->
  In tag cases /\ tag_number tag = value.
Proof.
  unfold switch. intros H. apply find_some in H as [Hin Heq].
  apply Z.eqb_eq in Heq. split; [assumption | symmetry; assumption].
Qed.

(** What is read from a message that carries the extension: an oblate
    body, in the frame that the extension names. *)
Lemma ReadFromMessage_extension
    (message : MassiveBody_message) (extension : OblateBody_message)
    (pointer : MassiveBody_pointer) :
  oblate_body_extension message = Some extension ->
  ReadFromMessage G message = Ok pointer ->
  exists frame_tag body,
    pointer = Oblate frame_tag body
    /\ snd (ReadFrameFromMessage (frame extension)) = true
    /\ FrameTag_descriptor frame_tag
       = type (fst (ReadFrameFromMessage (frame extension)))
    /\ FrameTag_number frame_tag
       = number (fst (ReadFrameFromMessage (frame extension)))
    /\ OblateBody_ReadFromMessage frame_tag message = Ok body.
Proof.
  intros Hext. unfold ReadFromMessage. rewrite Hext.
  destruct (ReadFrameFromMessage (frame extension))
    as [[descriptor value] is_inertial].
  cbn [fst snd type number].
  destruct is_inertial; cbn [negb]; [|discriminate].
  destruct descriptor; cbv zeta.
  - destruct (switch PluginTag_number _ value) as [tag|] eqn:E;
      [|discriminate].
    apply switch_some in E as [_ E]. intros H.
    apply OBLATE_BODY_TAG_VALUE_CASE_result in H as [body [-> H]].
    exists (Plugin tag), body. repeat split; assumption.
  - destruct (switch SolarSystemTag_number _ value) as [tag|] eqn:E;
      [|discriminate].
    apply switch_some in E as [_ E]. intros H.
    apply OBLATE_BODY_TAG_VALUE_CASE_result in H as [body [-> H]].
    exists (SolarSystem tag), body. repeat split; assumption.
  - destruct (switch TestTag_number _ value) as [tag|] eqn:E;
      [|discriminate].
    apply switch_some in E as [_ E]. intros H.
    apply OBLATE_BODY_TAG_VALUE_CASE_result in H as [body [-> H]].
    exists (Test tag), body. repeat split; assumption.
  - discriminate.
Qed.

(** What is read from a message that carries no extension: the body that
    the constructor makes of the gravitational parameter read. *)
Lemma ReadFromMessage_no_extension (message : MassiveBody_message) :
  oblate_body_extension message = None ->
  ReadFromMessage G message
  = match Quantity_ReadFromMessage (gravitational_parameter_of message) with
    | Ok mu =>
        if mu =? 0
        then Fatal
               "Massive body cannot have zero gravitational parameter"%string
        else Ok (Massive (Build_MassiveBody mu (mu / G)))
    | Fatal failure => Fatal failure
    end.
Proof.
  intros Hext. unfold ReadFromMessage. rewrite Hext.
  destruct (Quantity_ReadFromMessage _) as [mu | failure]; [|reflexivity].
  unfold MassiveBody_from_gravitational_parameter, CHECK_NE.
  destruct (mu =? 0); reflexivity.
Qed.

(** X12.  [ReadFromMessage] returns a body that is not oblate exactly
    when the message has a [massive_body] without the extension whose
    gravitational parameter reads as a quantity that is not zero; the
    body has that gravitational parameter, and the mass derived from
    it. *)
Theorem ReadFromMessage_Body_massive
    (message : Body_message) (body : MassiveBody) :
  ReadFromMessage_Body G message = Ok (Massive body) <->
  exists massive_body_message,
    massive_body_field message = Some massive_body_message
    /\ oblate_body_extension massive_body_message = None
    /\ Quantity_ReadFromMessage
         (gravitational_parameter_of massive_body_message)
       = Ok (gravitational_parameter body)
    /\ (gravitational_parameter body =? 0) = false
    /\ mass body = gravitational_parameter body / G.
Proof.
  unfold ReadFromMessage_Body, has_massive_body, massive_body.
  split.
  - destruct (massive_body_field message) as [m|]; [|discriminate].
    intros H. exists m. split; [reflexivity|].
    destruct (oblate_body_extension m) as [extension|] eqn:Hext.
    + destruct (ReadFromMessage_extension m extension _ Hext H)
        as (frame_tag & oblate & Heq & _). discriminate Heq.
    + rewrite (ReadFromMessage_no_extension m Hext) in H.
      destruct (Quantity_ReadFromMessage _) as [mu | failure];
        [|discriminate H].
      destruct (mu =? 0) eqn:E; [discriminate H|].
      injection H as <-. repeat split; assumption.
  - intros (m & -> & Hext & Hread & Hnz & Hmass).
    rewrite (ReadFromMessage_no_extension m Hext), Hread, Hnz.
    destruct body as [mu m']. cbn in Hmass. rewrite Hmass. reflexivity.
Qed.

(** X13.  An oblate body is read only from a message that carries the
    extension, with an inertial frame; its frame is the one whose
    enumeration and number the frame of the extension names, and the body
    is the one [OblateBody] reads in that frame. *)
Theorem ReadFromMessage_oblate_frame
    (message : MassiveBody_message) (frame_tag : FrameTag)
    (body : OblateBody) :
  ReadFromMessage G message = Ok (Oblate frame_tag body) ->
  exists extension,
    oblate_body_extension message = Some extension
    /\ snd (ReadFrameFromMessage (frame extension)) = true
    /\ FrameTag_descriptor frame_tag
       = type (fst (ReadFrameFromMessage (frame extension)))
    /\ FrameTag_number frame_tag
       = number (fst (ReadFrameFromMessage (frame extension)))
    /\ OblateBody_ReadFromMessage frame_tag message = Ok body.
Proof.
  destruct (oblate_body_extension message) as [extension|] eqn:Hext.
  - intros H. exists extension. split; [reflexivity|].
    destruct (ReadFromMessage_extension message extension _ Hext H)
      as (frame_tag' & body' & Heq & Hrest).
    injection Heq as -> ->. exact Hrest.
  - rewrite (ReadFromMessage_no_extension message Hext).
    destruct (Quantity_ReadFromMessage _) as [mu | failure]; [|discriminate].
    destruct (mu =? 0); discriminate.
Qed.

(** ** Writing, then reading *)

Lemma ReadFromMessage_WriteToMessage
    (body : MassiveBody) (message : MassiveBody_message) :
  oblate_body_extension message = None ->
  ReadFromMessage G (WriteToMessage body message)
  = match Quantity_ReadFromMessage
            (Quantity_WriteToMessage (gravitational_parameter_ body)
               (gravitational_parameter_of message)) with
    | Ok mu =>
        match MassiveBody_from_gravitational_parameter G mu with
        | Ok body' => Ok (Massive body')
        | Fatal failure => Fatal failure
        end
    | Fatal failure => Fatal failure
    end.
Proof.
  intros Hext. unfold ReadFromMessage, WriteToMessage.
  cbn [oblate_body_extension gravitational_parameter_of
       gravitational_parameter_field].
  rewrite Hext. reflexivity.
Qed.

Lemma ReadFromMessage_Body_WriteToMessage_Body
    (body : MassiveBody) (message : Body_message) :
  ReadFromMessage_Body G (WriteToMessage_Body body message)
  = ReadFromMessage G (WriteToMessage body (massive_body message)).
Proof. reflexivity. Qed.

(** A quantity is read as it was written. *)
Hypothesis Quantity_round_trip :
  forall (quantity : Quantity) (message : Quantity_message),
    Quantity_ReadFromMessage (Quantity_WriteToMessage quantity message)
    = Ok quantity.

(** X14.  A body constructed from a gravitational parameter survives the
    round trip: written to a message whose [massive_body] carries no
    extension (a message nothing was written to is one), it is read back
    as the same body, with the same mass, provided that quantities are
    read as they were written. *)
Theorem MassiveBody_round_trip
    (mu : GravitationalParameter) (body : MassiveBody)
    (message : Body_message) :
  MassiveBody_from_gravitational_parameter G mu = Ok body ->
  oblate_body_extension (massive_body message) = None ->
  ReadFromMessage_Body G (WriteToMessage_Body body message)
  = Ok (Massive body).
Proof.
  intros Hbody Hext.
  rewrite ReadFromMessage_Body_WriteToMessage_Body.
  rewrite ReadFromMessage_WriteToMessage, Quantity_round_trip by assumption.
  unfold MassiveBody_from_gravitational_parameter in *.
  destruct (CHECK_NE mu 0) eqn:E; [|discriminate Hbody].
  injection Hbody as <-. cbn [gravitational_parameter_].
  rewrite E. reflexivity.
Qed.

(** X15.  A body constructed from a mass keeps its gravitational
    parameter in the round trip, not its mass: only the gravitational
    parameter is written, and the body read back has the mass derived
    from it by a division.  When the product of the mass and of the
    gravitational constant is zero, reading back is a fatal failure. *)
Theorem MassiveBody_round_trip_from_mass
    (m : Mass) (body : MassiveBody) (message : Body_message) :
  MassiveBody_from_mass G m = Ok body ->
  oblate_body_extension (massive_body message) = None ->
  ReadFromMessage_Body G (WriteToMessage_Body body message)
  = if m * G =? 0
    then Fatal "Massive body cannot have zero gravitational parameter"%string
    else Ok (Massive (Build_MassiveBody (gravitational_parameter body)
                        (gravitational_parameter body / G))).
Proof.
  intros Hbody Hext.
  rewrite ReadFromMessage_Body_WriteToMessage_Body.
  rewrite ReadFromMessage_WriteToMessage, Quantity_round_trip by assumption.
  unfold MassiveBody_from_mass in Hbody.
  destruct (CHECK_NE m 0); [|discriminate Hbody].
  injection Hbody as <-.
  cbn [gravitational_parameter gravitational_parameter_].
  unfold MassiveBody_from_gravitational_parameter, CHECK_NE.
  destruct (m * G =? 0); reflexivity.
Qed.

End Messages.

(** X11 at the quotient of two zeros. *)
Lemma MassiveBody_nan_is_accepted_witness :
  is_nan (0 / 0) = true
  /\ MassiveBody_from_mass G_SI (0 / 0) = Ok (Build_MassiveBody nan nan).
Proof.
  split; [reflexivity|].
  exact (proj1 (MassiveBody_nan_is_accepted G_SI (0 / 0) eq_refl)).
Defined.

(** X13 on the message of an oblate body in the frame [TEST1]. *)
Lemma ReadFromMessage_oblate_frame_witness :
  ReadFromMessage G_SI oblate_message
  = Ok (Oblate (Test TEST1) (tagged_body (Test TEST1)))
  /\ exists extension,
       oblate_body_extension oblate_message = Some extension
       /\ snd (ReadFrameFromMessage (frame extension)) = true.
Proof.
  split; [reflexivity|].
  destruct (ReadFromMessage_oblate_frame G_SI oblate_message
              (Test TEST1) (tagged_body (Test TEST1)) eq_refl)
    as (extension & Hext & Hinertial & _).
  exists extension. split; assumption.
Defined.

(** X14 on the Earth of the fixture, given by its gravitational
    parameter. *)
Lemma MassiveBody_round_trip_witness :
  MassiveBody_from_gravitational_parameter G_SI (earth_mass * G_SI)
  = Ok (Build_MassiveBody (earth_mass * G_SI) (earth_mass * G_SI / G_SI))
  /\ ReadFromMessage_Body G_SI
       (WriteToMessage_Body
          (Build_MassiveBody (earth_mass * G_SI) (earth_mass * G_SI / G_SI))
          fresh_message)
     = Ok (Massive
             (Build_MassiveBody (earth_mass * G_SI)
                (earth_mass * G_SI / G_SI))).
Proof.
  split; [reflexivity|].
  exact (MassiveBody_round_trip G_SI (fun q m => eq_refl)
           (earth_mass * G_SI) _ fresh_message eq_refl eq_refl).
Defined.

(** X15 on the Moon of the fixture, given by its mass. *)
Lemma MassiveBody_round_trip_from_mass_witness :
  MassiveBody_from_mass G_SI moon_mass
  = Ok (Build_MassiveBody (moon_mass * G_SI) moon_mass)
  /\ ReadFromMessage_Body G_SI
       (WriteToMessage_Body (Build_MassiveBody (moon_mass * G_SI) moon_mass)
          fresh_message)
     = Ok (Massive
             (Build_MassiveBody (moon_mass * G_SI)
                (moon_mass * G_SI / G_SI))).
Proof.
  split; [reflexivity|].
  exact (MassiveBody_round_trip_from_mass G_SI (fun q m => eq_refl)
           moon_mass _ fresh_message eq_refl eq_refl).
Defined.

(** The mass of the Moon of the fixture is not the mass read back. *)
Example round_trip_changes_mass :
  (moon_mass * G_SI / G_SI =? moon_mass) = false.
Proof. reflexivity. Qed.

(** A body of a mass so small that its gravitational parameter is zero
    is constructed, and written, and cannot be read back. *)
Example round_trip_underflow :
  MassiveBody_from_mass G_SI 1e-320
  = Ok (Build_MassiveBody 0 1e-320)
  /\ ReadFromMessage_Body G_SI
       (WriteToMessage_Body (Build_MassiveBody 0 1e-320) fresh_message)
     = Fatal "Massive body cannot have zero gravitational parameter"%string.
Proof. split; reflexivity. Qed.

End SerializationTheory.

(* ===================================================================== *)
(** * Properties of [ToMathematicaString] *)
(* ===================================================================== *)

Module MathematicaTheory.

Import Geometry Mathematica.
Local Open Scope string_scope.

Lemma append_assoc (a b c : string) : (a ++ b) ++ c = a ++ (b ++ c).
Proof.
  induction a as [|ch a IH]; cbn [append]; [reflexivity|].
  rewrite IH. reflexivity.
Qed.

Section Vectors.
Context {Scalar Frame : Type}.
Variable DebugString : Scalar -> string.

(** The loop, from any result and separator, over at least one vector. *)
Lemma fold_append_vector (vectors : list (Vector Scalar Frame))
    (v : Vector Scalar Frame) (result separator : string) :
  fold_left (append_vector DebugString) (v :: vectors) (result, separator)
  = (result ++ separator
     ++ String.concat ("," ++ newline)
          (map (ToMathematicaString DebugString) (v :: vectors)),
     "," ++ newline).
Proof.
  revert v result separator.
  induction vectors as [|w vectors IH]; intros v result separator.
  - cbn [fold_left append_vector map String.concat].
    rewrite append_assoc. reflexivity.
  - change (fold_left (append_vector DebugString) (v :: w :: vectors)
              (result, separator))
      with (fold_left (append_vector DebugString) (w :: vectors)
              (append_vector DebugString (result, separator) v)).
    cbn [append_vector]. rewrite IH.
    cbn [map String.concat]. rewrite !append_assoc. reflexivity.
Qed.

(** X16.  The string of a list of vectors is the Mathematica line, the
    opening literal, the strings of the vectors in their order with a
    comma and a line feed between two of them and none before the first
    or after the last, the closing literal and the Mathematica line. *)
Theorem ToMathematicaString_vectors_concat
    (vectors : list (Vector Scalar Frame)) :
  ToMathematicaString_vectors DebugString vectors
  = mathematica_line ++ opening
    ++ String.concat ("," ++ newline)
         (map (ToMathematicaString DebugString) vectors)
    ++ closing ++ mathematica_line.
Proof.
  unfold ToMathematicaString_vectors. cbv zeta.
  destruct vectors as [|v vectors].
  - cbn [fold_left map String.concat]. rewrite !append_assoc. reflexivity.
  - rewrite fold_append_vector. cbn [append].
    rewrite !append_assoc. reflexivity.
Qed.

End Vectors.

End MathematicaTheory.
